(** * Driver registry and lifecycle control of the frontend (driver.c)

    A shallow embedding of [driver.c]: the driver selection resolver
    ([find_driver_nonempty], [find_driver_index], [find_prev_driver],
    [find_next_driver]) as pure functions over the driver tables, and the
    lifecycle coordinator ([init_drivers], [uninit_drivers], [driver_ctl]
    and its helpers) as computations over an explicit frontend state that
    records every call made into the backend subsystems.

    The file is compiled with [HAVE_MENU] defined. *)

From Stdlib Require Import ZArith NArith String Ascii List Bool Lia PrimFloat.
Import ListNotations.

Local Open Scope Z_scope.

(* ================================================================= *)
(** ** C strings and machine integers *)

(** Strings stand for the contents of NUL-terminated buffers. *)

Definition uchar (c : ascii) : Z := Z.of_N (N_of_ascii c).

Definition tolower (c : ascii) : ascii :=
  let n := N_of_ascii c in
  if ((65 <=? n) && (n <=? 90))%N then ascii_of_N (n + 32) else c.

(** [strcmp]: difference of the first pair of differing characters. *)
Fixpoint strcmp (a b : string) : Z :=
  match a, b with
  | EmptyString, EmptyString => 0
  | EmptyString, String d _ => 0 - uchar d
  | String c _, EmptyString => uchar c
  | String c a', String d b' =>
      if uchar c =? uchar d then strcmp a' b' else uchar c - uchar d
  end.

(** [strcasecmp]: as [strcmp], after folding both sides to lower case. *)
Fixpoint strcasecmp (a b : string) : Z :=
  match a, b with
  | EmptyString, EmptyString => 0
  | EmptyString, String d _ => 0 - uchar (tolower d)
  | String c _, EmptyString => uchar (tolower c)
  | String c a', String d b' =>
      if uchar (tolower c) =? uchar (tolower d) then strcasecmp a' b'
      else uchar (tolower c) - uchar (tolower d)
  end.

(** [string_is_empty] of stdstring.h: the first byte is the terminator. *)
Definition string_is_empty (s : string) : bool :=
  match s with
  | EmptyString => true
  | String _ _ => false
  end.

Fixpoint truncate (n : nat) (s : string) : string :=
  match n, s with
  | O, _ => EmptyString
  | S _, EmptyString => EmptyString
  | S n', String c r => String c (truncate n' r)
  end.

(** [strlcpy(dst, src, len)]: at most [len - 1] characters of [src] are
    copied and terminated; with [len = 0] nothing is written.  The value
    is the new contents of [dst]. *)
Definition strlcpy (dst src : string) (len : N) : string :=
  match len with
  | N0 => dst
  | Npos _ => truncate (N.to_nat (len - 1)) src
  end.

(** 32-bit arithmetic of the loop counter ([unsigned]) and of the indices
    ([int]), wrap-around written out. *)
Definition uint_wrap (z : Z) : Z := z mod 2 ^ 32.

Definition int_wrap (z : Z) : Z :=
  let u := z mod 2 ^ 32 in if u <? 2 ^ 31 then u else u - 2 ^ 32.

(* ================================================================= *)
(** ** Identifier hashes *)

Definition HASH_LOCATION_DRIVER : Z := 0x09189689.
Definition HASH_CAMERA_DRIVER : Z := 0xf25db959.
Definition HASH_MENU_DRIVER : Z := 0xd607fb05.
Definition HASH_INPUT_DRIVER : Z := 0x4c087840.
Definition HASH_INPUT_JOYPAD_DRIVER : Z := 0xab124146.
Definition HASH_VIDEO_DRIVER : Z := 0x1805a5e7.
Definition HASH_AUDIO_DRIVER : Z := 0x26594002.
Definition HASH_AUDIO_RESAMPLER_DRIVER : Z := 0xedcba9ec.
Definition HASH_RECORD_DRIVER : Z := 0x144cd2cf.

(** Modelled from the spec: [msg_hash_calculate] (msg_hash.c) is not part
    of the sources.  The resolver below takes the hash function as a
    parameter; [djb2] is the deterministic 32-bit string hash used for the
    concrete runs, and it sends the nine category labels to the nine
    constants above. *)
Fixpoint djb2_from (h : Z) (s : string) : Z :=
  match s with
  | EmptyString => h
  | String c r => djb2_from (uint_wrap (Z.shiftl h 5 + h + uchar c)) r
  end.

Definition djb2 (s : string) : Z := djb2_from 5381 s.

(* ================================================================= *)
(** ** Backend tables *)

(** A backend descriptor; the resolver only reads its identifying name. *)
Record driver : Type := { ident : string }.

(** Modelled from the spec: the per-category tables of registered backends
    live in the subsystems ([video_driver.c], [audio_driver.c], ...), which
    are not part of the sources.  Each is a NULL-terminated array, here the
    list of its entries before the terminator. *)
Record registries : Type := {
  camera_drivers : list driver;
  location_drivers : list driver;
  menu_ctx_drivers : list driver;
  input_drivers : list driver;
  joypad_drivers : list driver;
  video_drivers : list driver;
  audio_drivers : list driver;
  record_drivers : list driver;
  resampler_drivers : list driver
}.

(** [X_driver_find_handle(idx)]: the entry at [idx], NULL at the
    terminator. *)
Definition find_handle (tbl : list driver) (idx : Z) : option driver :=
  if idx <? 0 then None else nth_error tbl (Z.to_nat idx).

(** [X_driver_find_ident(idx)]: the name of the entry at [idx]. *)
Definition find_ident (tbl : list driver) (idx : Z) : string :=
  match find_handle tbl idx with
  | Some d => ident d
  | None => EmptyString
  end.

Section Resolver.

Variable msg_hash_calculate : string -> Z.
Variable R : registries.

(** One arm of the switch in [find_driver_nonempty]. *)
Definition find_in (tbl : list driver) (i : Z) (s : string) (len : N)
  : option driver * string :=
  let drv := find_handle tbl i in
  match drv with
  | Some _ => (drv, strlcpy s (find_ident tbl i) len)
  | None => (drv, s)
  end.

(** [find_driver_nonempty(label, i, s, len)]: the handle found (NULL as
    [None]) and the contents of [s] afterwards. *)
Definition find_driver_nonempty (label : string) (i : Z) (s : string) (len : N)
  : option driver * string :=
  let hash := msg_hash_calculate label in
  if hash =? HASH_CAMERA_DRIVER then find_in (camera_drivers R) i s len
  else if hash =? HASH_LOCATION_DRIVER then find_in (location_drivers R) i s len
  else if hash =? HASH_MENU_DRIVER then find_in (menu_ctx_drivers R) i s len
  else if hash =? HASH_INPUT_DRIVER then find_in (input_drivers R) i s len
  else if hash =? HASH_INPUT_JOYPAD_DRIVER then find_in (joypad_drivers R) i s len
  else if hash =? HASH_VIDEO_DRIVER then find_in (video_drivers R) i s len
  else if hash =? HASH_AUDIO_DRIVER then find_in (audio_drivers R) i s len
  else if hash =? HASH_RECORD_DRIVER then find_in (record_drivers R) i s len
  else if hash =? HASH_AUDIO_RESAMPLER_DRIVER then
    find_in (resampler_drivers R) i s len
  else (None, s).

(** The table a label dispatches to (empty for an unknown label). *)
Definition drivers_of (label : string) : list driver :=
  let hash := msg_hash_calculate label in
  if hash =? HASH_CAMERA_DRIVER then camera_drivers R
  else if hash =? HASH_LOCATION_DRIVER then location_drivers R
  else if hash =? HASH_MENU_DRIVER then menu_ctx_drivers R
  else if hash =? HASH_INPUT_DRIVER then input_drivers R
  else if hash =? HASH_INPUT_JOYPAD_DRIVER then joypad_drivers R
  else if hash =? HASH_VIDEO_DRIVER then video_drivers R
  else if hash =? HASH_AUDIO_DRIVER then audio_drivers R
  else if hash =? HASH_RECORD_DRIVER then record_drivers R
  else if hash =? HASH_AUDIO_RESAMPLER_DRIVER then resampler_drivers R
  else [].

(** The [for] loop of [find_driver_index], from counter value [i] with the
    scratch buffer [str]; one unit of fuel per iteration. *)
Fixpoint find_driver_index_loop (fuel : nat) (label : string) (i : Z)
    (str drv : string) : Z :=
  match fuel with
  | O => -1
  | S fuel' =>
      let '(obj, str) := find_driver_nonempty label (int_wrap i) str 256 in
      match obj with
      | None => -1
      | Some _ =>
          if string_is_empty str then -1
          else if strcasecmp drv str =? 0 then int_wrap i
          else find_driver_index_loop fuel' label (uint_wrap (i + 1)) str drv
      end
  end.

(** [find_driver_index(label, drv)].  The loop leaves at the table's
    terminator at the latest, so one more iteration than the table has
    entries is enough fuel ([find_driver_index_loop_fuel]).  The scratch
    buffer is uninitialised in the source; it is written before it is
    read. *)
Definition find_driver_index (label drv : string) : Z :=
  find_driver_index_loop (S (length (drivers_of label))) label 0 EmptyString drv.

(** [find_first_driver(label, s, len)]. *)
Definition find_first_driver (label s : string) (len : N) : bool * string :=
  (true, snd (find_driver_nonempty label 0 s len)).

(** [find_prev_driver(label, s, len)]: result and contents of [s]. *)
Definition find_prev_driver (label s : string) (len : N) : bool * string :=
  let i := find_driver_index label s in
  if 0 <? i then (true, snd (find_driver_nonempty label (i - 1) s len))
  else (false, s).

(** [find_next_driver(label, s, len)]: result and contents of [s]. *)
Definition find_next_driver (label s : string) (len : N) : bool * string :=
  let i := find_driver_index label s in
  if (0 <=? i) && negb (strcmp s "null" =? 0) then
    (true, snd (find_driver_nonempty label (int_wrap (i + 1)) s len))
  else (false, s).

(** The name compared against the selection: the entry's name as it
    arrives in the 256-byte scratch buffer. *)
Definition scratch_name (d : driver) : string := truncate 255 (ident d).

(** [i] is the index [find_driver_index] reports for [drv]: the entry at
    [i] matches [drv] ignoring case, and every entry before it has a
    non-empty name that does not match. *)
Definition is_index_of (tbl : list driver) (drv : string) (i : Z) : Prop :=
  0 <= i < 2 ^ 31 /\
  exists d, nth_error tbl (Z.to_nat i) = Some d /\
    scratch_name d <> EmptyString /\
    strcasecmp drv (scratch_name d) = 0 /\
    forall j d', (j < Z.to_nat i)%nat -> nth_error tbl j = Some d' ->
      scratch_name d' <> EmptyString /\ strcasecmp drv (scratch_name d') <> 0.

(** Repeated selection of the next backend. *)
Fixpoint select_next_n (n : nat) (label s : string) (len : N) : string :=
  match n with
  | O => s
  | S n' => select_next_n n' label (snd (find_next_driver label s len)) len
  end.

End Resolver.

(** A concrete set of tables for the examples. *)
Definition mk (name : string) : driver := {| ident := name |}.

Definition sample_registries : registries := {|
  camera_drivers := [mk "null"];
  location_drivers := [mk "null"];
  menu_ctx_drivers := [mk "rgui"; mk "xmb"; mk "null"];
  input_drivers := [mk "ctr"; mk "null"];
  joypad_drivers := [mk "ctr"; mk "null"];
  video_drivers := [mk "ctr"; mk "gl"; mk "null"];
  audio_drivers := [mk "csnd"; mk "dsp"; mk "null"];
  record_drivers := [mk "null"];
  resampler_drivers := [mk "sinc"; mk "nearest"]
|}.


(* ================================================================= *)
(** ** Lifecycle coordinator: data *)

(** The backend subsystems the coordinator drives. *)
Inductive category : Type :=
  VIDEO | AUDIO | INPUT | CAMERA | LOCATION | MENU.

Definition category_eqb (a b : category) : bool :=
  match a, b with
  | VIDEO, VIDEO | AUDIO, AUDIO | INPUT, INPUT
  | CAMERA, CAMERA | LOCATION, LOCATION | MENU, MENU => true
  | _, _ => false
  end.

(** What driver.c takes from headers and the build that are not part of
    the sources: the [DRIVER_*] bits of driver.h, and whether the core is
    loaded dynamically ([HAVE_DYNAMIC]).  They are parameters of the
    embedding. *)
Class build_config : Type := {
  DRIVER_AUDIO : Z;
  DRIVER_VIDEO : Z;
  DRIVER_INPUT : Z;
  DRIVER_CAMERA : Z;
  DRIVER_LOCATION : Z;
  DRIVER_MENU : Z;
  DRIVERS_VIDEO_INPUT : Z;
  HAVE_DYNAMIC : bool
}.

Inductive driver_ctl_state : Type :=
| RARCH_DRIVER_CTL_NONE
| RARCH_DRIVER_CTL_DEINIT
| RARCH_DRIVER_CTL_UNINIT
| RARCH_DRIVER_CTL_INIT
| RARCH_DRIVER_CTL_INIT_PRE
| RARCH_DRIVER_CTL_SET_REFRESH_RATE
| RARCH_DRIVER_CTL_SET_NONBLOCK_STATE
| RARCH_DRIVER_CTL_UPDATE_SYSTEM_AV_INFO.

(** The enumerators of each subsystem's control function that driver.c
    uses. *)
Inductive rarch_display_ctl_state : Type :=
| RARCH_DISPLAY_CTL_DESTROY
| RARCH_DISPLAY_CTL_DEINIT
| RARCH_DISPLAY_CTL_DESTROY_DATA
| RARCH_DISPLAY_CTL_OWNS_DRIVER
| RARCH_DISPLAY_CTL_UNSET_OWN_DRIVER
| RARCH_DISPLAY_CTL_MONITOR_RESET
| RARCH_DISPLAY_CTL_INIT
| RARCH_DISPLAY_CTL_IS_VIDEO_CACHE_CONTEXT_ACK
| RARCH_DISPLAY_CTL_UNSET_VIDEO_CACHE_CONTEXT_ACK
| RARCH_DISPLAY_CTL_FIND_DRIVER
| RARCH_DISPLAY_CTL_MONITOR_ADJUST_SYSTEM_RATES
| RARCH_DISPLAY_CTL_IS_ACTIVE
| RARCH_DISPLAY_CTL_SET_NONBLOCK_STATE.

Inductive rarch_audio_ctl_state : Type :=
| RARCH_AUDIO_CTL_DESTROY
| RARCH_AUDIO_CTL_DEINIT
| RARCH_AUDIO_CTL_DESTROY_DATA
| RARCH_AUDIO_CTL_OWNS_DRIVER
| RARCH_AUDIO_CTL_UNSET_OWN_DRIVER
| RARCH_AUDIO_CTL_INIT
| RARCH_AUDIO_CTL_FIND_DRIVER
| RARCH_AUDIO_CTL_MONITOR_ADJUST_SYSTEM_RATES
| RARCH_AUDIO_CTL_MONITOR_SET_REFRESH_RATE.

Inductive rarch_input_ctl_state : Type :=
| RARCH_INPUT_CTL_DESTROY
| RARCH_INPUT_CTL_DESTROY_DATA
| RARCH_INPUT_CTL_OWNS_DRIVER
| RARCH_INPUT_CTL_UNSET_OWN_DRIVER
| RARCH_INPUT_CTL_FIND_DRIVER
| RARCH_INPUT_CTL_IS_NONBLOCK_STATE.

Inductive rarch_menu_ctl_state : Type :=
| RARCH_MENU_CTL_CONTEXT_DESTROY
| RARCH_MENU_CTL_OWNS_DRIVER
| RARCH_MENU_CTL_DEINIT
| RARCH_MENU_CTL_DESTROY
| RARCH_MENU_CTL_SET_OWN_DRIVER
| RARCH_MENU_CTL_CONTEXT_RESET
| RARCH_MENU_CTL_SYSTEM_INFO_GET.

Inductive rarch_location_ctl_state : Type :=
| RARCH_LOCATION_CTL_OWNS_DRIVER
| RARCH_LOCATION_CTL_DEINIT
| RARCH_LOCATION_CTL_DESTROY
| RARCH_LOCATION_CTL_UNSET_OWN_DRIVER
| RARCH_LOCATION_CTL_IS_ACTIVE.

Inductive rarch_camera_ctl_state : Type :=
| RARCH_CAMERA_CTL_OWNS_DRIVER
| RARCH_CAMERA_CTL_DEINIT
| RARCH_CAMERA_CTL_DESTROY
| RARCH_CAMERA_CTL_UNSET_OWN_DRIVER
| RARCH_CAMERA_CTL_IS_ACTIVE.

Inductive event_command_t : Type :=
| EVENT_CMD_VIDEO_SET_NONBLOCKING_STATE
| EVENT_CMD_REINIT
| EVENT_CMD_RECORD_DEINIT
| EVENT_CMD_RECORD_INIT
| EVENT_CMD_CORE_INFO_INIT
| EVENT_CMD_LOAD_CORE_PERSIST.

Inductive msg_hash_enums : Type :=
| MSG_RESTARTING_RECORDING_DUE_TO_DRIVER_REINIT.

(** Modelled from the spec: [struct retro_system_av_info] (libretro.h) is
    not part of the sources; it holds the video geometry and the timing
    (frame rate, audio sample rate).  driver.c only copies it whole. *)
Record retro_game_geometry : Type := {
  base_width : Z;
  base_height : Z;
  max_width : Z;
  max_height : Z;
  aspect_ratio : float
}.

Record retro_system_timing : Type := {
  fps : float;
  sample_rate : float
}.

Record retro_system_av_info : Type := {
  geometry : retro_game_geometry;
  timing : retro_system_timing
}.

(** The payload [void *data] of [driver_ctl], by what it points to. *)
Inductive data_ptr : Type :=
| NULL
| ptr_int (flags : Z)
| ptr_float (hz : float)
| ptr_av_info (info : option retro_system_av_info).

(** A call that leaves driver.c with an effect in a subsystem.  Pure
    queries (OWNS_DRIVER, IS_ACTIVE, ...) are answered from the state and
    are not recorded. *)
Inductive call : Type :=
| call_video (st : rarch_display_ctl_state) (data : option bool)
| call_audio (st : rarch_audio_ctl_state)
| call_audio_driver_set_nonblocking_state (toggle : bool)
| call_input (st : rarch_input_ctl_state)
| call_menu (st : rarch_menu_ctl_state)
| call_location (st : rarch_location_ctl_state)
| call_camera (st : rarch_camera_ctl_state)
| call_init_camera
| call_init_location
| call_init_menu
| call_find_camera_driver
| call_find_location_driver
| call_find_menu_driver
| call_hw_render_context_reset
| call_video_monitor_set_refresh_rate (hz : float)
| call_event_command (cmd : event_command_t)
| call_runloop_set_frame_time_last
| call_runloop_msg_queue_push_new (msg : msg_hash_enums) (prio duration : Z)
    (flush : bool)
| call_retro_get_system_info
| call_retro_uninit_libretro_cbs.


(** Modelled from the spec: what driver.c reads from its collaborators
    (settings, runloop, video, input, camera, location, menu, recording)
    and never writes itself. *)
Record frontend_env : Type := {
  video_is_active : bool;          (* RARCH_DISPLAY_CTL_IS_ACTIVE *)
  video_driver_ptr : bool;         (* video_driver_get_ptr(false) != NULL *)
  hw_render_has_context_reset : bool; (* hw_render->context_reset != NULL *)
  camera_is_active : bool;         (* RARCH_CAMERA_CTL_IS_ACTIVE *)
  location_is_active : bool;       (* RARCH_LOCATION_CTL_IS_ACTIVE *)
  input_nonblock_state : bool;     (* RARCH_INPUT_CTL_IS_NONBLOCK_STATE *)
  settings_video_vsync : bool;     (* settings->video.vsync *)
  system_force_nonblock : bool;    (* system->force_nonblock *)
  menu_system_info : bool;         (* RARCH_MENU_CTL_SYSTEM_INFO_GET gives non-NULL *)
  recording_data_ptr : bool        (* recording_driver_get_data_ptr() != NULL *)
}.

(** The process-wide state the coordinator works on. *)
Record world : Type := mk_world {
  env : frontend_env;
  own_driver : category -> bool;       (* Ownership Flag per category *)
  video_cache_context_ack : bool;
  system_av_info : retro_system_av_info;
  calls : list call                    (* calls made so far, oldest first *)
}.

Definition set_own_driver (c : category) (b : bool) (s : world) : world :=
  mk_world (env s)
    (fun c' => if category_eqb c' c then b else own_driver s c')
    (video_cache_context_ack s) (system_av_info s) (calls s).

Definition set_video_cache_context_ack (b : bool) (s : world) : world :=
  mk_world (env s) (own_driver s) b (system_av_info s) (calls s).

Definition set_system_av_info (i : retro_system_av_info) (s : world) : world :=
  mk_world (env s) (own_driver s) (video_cache_context_ack s) i (calls s).

Definition record_call (k : call) (s : world) : world :=
  mk_world (env s) (own_driver s) (video_cache_context_ack s)
    (system_av_info s) (calls s ++ [k]).

(* ================================================================= *)
(** ** Computations over the state *)

(** [None] is a run that dereferences a null or mistyped pointer. *)
Definition M (A : Type) : Type := world -> option (A * world).

Definition ret {A : Type} (a : A) : M A := fun s => Some (a, s).

Definition bind {A B : Type} (m : M A) (f : A -> M B) : M B :=
  fun s => match m s with
           | Some (a, s') => f a s'
           | None => None
           end.

Definition fault {A : Type} : M A := fun _ => None.

Definition gets {A : Type} (f : world -> A) : M A := fun s => Some (f s, s).

Definition modify (f : world -> world) : M unit := fun s => Some (tt, f s).

Declare Scope m_scope.
Delimit Scope m_scope with M.
Notation "x <- m ;; k" := (bind m (fun x => k))
  (at level 61, m at next level, right associativity) : m_scope.
Notation "m ;; k" := (bind m (fun _ => k))
  (at level 61, right associativity) : m_scope.
Local Open Scope m_scope.

(** [if (b) m;] *)
Definition when {A : Type} (b : bool) (m : M A) : M unit :=
  if b then m ;; ret tt else ret tt.

(** [a && b] and [a || b], with [b] evaluated only when it decides. *)
Definition andM (a : bool) (b : M bool) : M bool :=
  if a then b else ret false.

Definition orM (a : bool) (b : M bool) : M bool :=
  if a then ret true else b.

(** [!m] *)
Definition notM (m : M bool) : M bool := b <- m ;; ret (negb b).

(** An effectful call into a subsystem: recorded, result unused. *)
Definition extern (k : call) : M bool := modify (record_call k) ;; ret true.

(** [flags & bit] as a condition. *)
Definition has (flags bit : Z) : bool := negb (Z.land flags bit =? 0).

(* ================================================================= *)
(** ** The collaborators *)

(** Modelled from the spec: the command dispatcher behind
    [event_command] is not part of the sources.  [EVENT_CMD_REINIT]
    "triggers a full reinitialization cycle through the Lifecycle
    Coordinator" (driver.c: "Will reinitialize audio/video drivers"), so
    it comes back to the state the coordinator works on: what the cycle
    does to that state, the calls it makes included, is the parameter
    [reinit_cycle] of the embedding.  The System A/V Info is "mutated only
    by UPDATE_SYSTEM_AV_INFO", so the cycle leaves it as it finds it. *)
Class command_model : Type := {
  reinit_cycle : world -> world;
  reinit_cycle_av_info :
    forall s, system_av_info (reinit_cycle s) = system_av_info s
}.

(** Modelled from the spec: the subsystem control functions are not part
    of the sources.  Per the external interface, [owns_driver] and
    [is_active] are queries, [set_own_driver] and [unset_own_driver] write
    the Ownership Flag, and [init], [deinit], [destroy], [destroy_data]
    and [find_driver] act inside the subsystem: they are recorded, in the
    order in which driver.c makes them, and what they do there is not
    part of the state.  [UNSET_VIDEO_CACHE_CONTEXT_ACK] clears the
    acknowledgement that [IS_VIDEO_CACHE_CONTEXT_ACK] reads. *)
Definition video_driver_ctl (st : rarch_display_ctl_state) (data : option bool)
  : M bool :=
  match st with
  | RARCH_DISPLAY_CTL_OWNS_DRIVER => gets (fun s => own_driver s VIDEO)
  | RARCH_DISPLAY_CTL_IS_ACTIVE => gets (fun s => video_is_active (env s))
  | RARCH_DISPLAY_CTL_IS_VIDEO_CACHE_CONTEXT_ACK => gets video_cache_context_ack
  | RARCH_DISPLAY_CTL_UNSET_OWN_DRIVER =>
      modify (set_own_driver VIDEO false) ;; extern (call_video st data)
  | RARCH_DISPLAY_CTL_UNSET_VIDEO_CACHE_CONTEXT_ACK =>
      modify (set_video_cache_context_ack false) ;; extern (call_video st data)
  | _ => extern (call_video st data)
  end.

Definition audio_driver_ctl (st : rarch_audio_ctl_state) : M bool :=
  match st with
  | RARCH_AUDIO_CTL_OWNS_DRIVER => gets (fun s => own_driver s AUDIO)
  | RARCH_AUDIO_CTL_UNSET_OWN_DRIVER =>
      modify (set_own_driver AUDIO false) ;; extern (call_audio st)
  | _ => extern (call_audio st)
  end.

Definition input_driver_ctl (st : rarch_input_ctl_state) : M bool :=
  match st with
  | RARCH_INPUT_CTL_OWNS_DRIVER => gets (fun s => own_driver s INPUT)
  | RARCH_INPUT_CTL_IS_NONBLOCK_STATE =>
      gets (fun s => input_nonblock_state (env s))
  | RARCH_INPUT_CTL_UNSET_OWN_DRIVER =>
      modify (set_own_driver INPUT false) ;; extern (call_input st)
  | _ => extern (call_input st)
  end.

(** For [RARCH_MENU_CTL_SYSTEM_INFO_GET] the result says whether the
    pointer handed back is non-NULL. *)
Definition menu_driver_ctl (st : rarch_menu_ctl_state) : M bool :=
  match st with
  | RARCH_MENU_CTL_OWNS_DRIVER => gets (fun s => own_driver s MENU)
  | RARCH_MENU_CTL_SYSTEM_INFO_GET => gets (fun s => menu_system_info (env s))
  | RARCH_MENU_CTL_SET_OWN_DRIVER =>
      modify (set_own_driver MENU true) ;; extern (call_menu st)
  | _ => extern (call_menu st)
  end.

Definition location_driver_ctl (st : rarch_location_ctl_state) : M bool :=
  match st with
  | RARCH_LOCATION_CTL_OWNS_DRIVER => gets (fun s => own_driver s LOCATION)
  | RARCH_LOCATION_CTL_IS_ACTIVE => gets (fun s => location_is_active (env s))
  | RARCH_LOCATION_CTL_UNSET_OWN_DRIVER =>
      modify (set_own_driver LOCATION false) ;; extern (call_location st)
  | _ => extern (call_location st)
  end.

Definition camera_driver_ctl (st : rarch_camera_ctl_state) : M bool :=
  match st with
  | RARCH_CAMERA_CTL_OWNS_DRIVER => gets (fun s => own_driver s CAMERA)
  | RARCH_CAMERA_CTL_IS_ACTIVE => gets (fun s => camera_is_active (env s))
  | RARCH_CAMERA_CTL_UNSET_OWN_DRIVER =>
      modify (set_own_driver CAMERA false) ;; extern (call_camera st)
  | _ => extern (call_camera st)
  end.

Definition video_driver_get_ptr : M bool :=
  gets (fun s => video_driver_ptr (env s)).

Definition recording_driver_get_data_ptr : M bool :=
  gets (fun s => recording_data_ptr (env s)).

(** [settings->video.vsync], through [config_get_ptr()]. *)
Definition settings_vsync : M bool :=
  gets (fun s => settings_video_vsync (env s)).

(** [system->force_nonblock], through
    [runloop_ctl(RUNLOOP_CTL_SYSTEM_INFO_GET, &system)]. *)
Definition system_info_force_nonblock : M bool :=
  gets (fun s => system_force_nonblock (env s)).

(** [hw_render->context_reset != NULL], through
    [video_driver_callback()]. *)
Definition hw_render_context_reset_set : M bool :=
  gets (fun s => hw_render_has_context_reset (env s)).

Definition audio_driver_set_nonblocking_state (toggle : bool) : M bool :=
  extern (call_audio_driver_set_nonblocking_state toggle).

Definition video_monitor_set_refresh_rate (hz : float) : M bool :=
  extern (call_video_monitor_set_refresh_rate hz).

(** [event_command(cmd)]: the command is recorded; on [EVENT_CMD_REINIT]
    the reinit cycle has run when the call returns.  Of the other
    commands driver.c issues, what the frontend does on them is not part
    of the state. *)
Definition event_command {cm : command_model} (cmd : event_command_t)
  : M bool :=
  match cmd with
  | EVENT_CMD_REINIT =>
      extern (call_event_command cmd) ;; modify reinit_cycle ;; ret true
  | _ => extern (call_event_command cmd)
  end.

Definition runloop_msg_queue_push_new (msg : msg_hash_enums) (prio duration : Z)
    (flush : bool) : M bool :=
  extern (call_runloop_msg_queue_push_new msg prio duration flush).

Definition init_camera : M bool := extern call_init_camera.
Definition init_location : M bool := extern call_init_location.
Definition init_menu : M bool := extern call_init_menu.
Definition find_camera_driver : M bool := extern call_find_camera_driver.
Definition find_location_driver : M bool := extern call_find_location_driver.
Definition find_menu_driver : M bool := extern call_find_menu_driver.
Definition hw_render_context_reset : M bool := extern call_hw_render_context_reset.
Definition runloop_ctl_SET_FRAME_TIME_LAST : M bool :=
  extern call_runloop_set_frame_time_last.
Definition retro_get_system_info : M bool := extern call_retro_get_system_info.
Definition retro_uninit_libretro_cbs : M bool :=
  extern call_retro_uninit_libretro_cbs.

(* ================================================================= *)
(** ** driver.c: the lifecycle coordinator *)

Section Lifecycle.

Context {cfg : build_config} {cm : command_model}.

(** [driver_set_nonblock_state()]. *)
Definition driver_set_nonblock_state : M unit :=
  enable <- input_driver_ctl RARCH_INPUT_CTL_IS_NONBLOCK_STATE ;;
  active <- video_driver_ctl RARCH_DISPLAY_CTL_IS_ACTIVE None ;;
  usable <- andM active video_driver_get_ptr ;;
  when usable (
    vsync <- settings_vsync ;;
    forced <- orM (negb vsync) system_info_force_nonblock ;;
    let video_nonblock := if forced then true else enable in
    video_driver_ctl RARCH_DISPLAY_CTL_SET_NONBLOCK_STATE (Some video_nonblock)) ;;
  audio_driver_set_nonblocking_state enable ;;
  ret tt.

(** The arm [case RARCH_DRIVER_CTL_SET_NONBLOCK_STATE] of [driver_ctl].
    [driver_adjust_system_rates] and [init_drivers] re-enter [driver_ctl]
    with exactly this command; the arm is a definition of its own so that
    they can name it. *)
Definition driver_ctl_SET_NONBLOCK_STATE : M bool :=
  driver_set_nonblock_state ;;
  ret false.

(** [driver_adjust_system_rates()]. *)
Definition driver_adjust_system_rates : M unit :=
  audio_driver_ctl RARCH_AUDIO_CTL_MONITOR_ADJUST_SYSTEM_RATES ;;
  video_driver_ctl RARCH_DISPLAY_CTL_MONITOR_ADJUST_SYSTEM_RATES None ;;
  ptr <- video_driver_get_ptr ;;
  if negb ptr then ret tt
  else
    force <- system_info_force_nonblock ;;
    if force then
      event_command EVENT_CMD_VIDEO_SET_NONBLOCKING_STATE ;; ret tt
    else
      driver_ctl_SET_NONBLOCK_STATE ;; ret tt.

(** [driver_update_system_av_info(info)]; the [memcpy] reads through
    [info]. *)
Definition driver_update_system_av_info (info : option retro_system_av_info)
  : M bool :=
  match info with
  | None => fault
  | Some i =>
      modify (set_system_av_info i) ;;
      event_command EVENT_CMD_REINIT ;;
      recording <- recording_driver_get_data_ptr ;;
      when recording (
        runloop_msg_queue_push_new
          MSG_RESTARTING_RECORDING_DUE_TO_DRIVER_REINIT 2 180 false ;;
        event_command EVENT_CMD_RECORD_DEINIT ;;
        event_command EVENT_CMD_RECORD_INIT) ;;
      ret true
  end.

(** [menu_update_libretro_info()]. *)
Definition menu_update_libretro_info : M unit :=
  info <- menu_driver_ctl RARCH_MENU_CTL_SYSTEM_INFO_GET ;;
  if negb info then ret tt
  else
    when (negb HAVE_DYNAMIC) retro_get_system_info ;;
    event_command EVENT_CMD_CORE_INFO_INIT ;;
    event_command EVENT_CMD_LOAD_CORE_PERSIST ;;
    ret tt.

(** [init_drivers(flags)]. *)
Definition init_drivers (flags : Z) : M unit :=
  when (has flags DRIVER_VIDEO)
    (video_driver_ctl RARCH_DISPLAY_CTL_UNSET_OWN_DRIVER None) ;;
  when (has flags DRIVER_AUDIO)
    (audio_driver_ctl RARCH_AUDIO_CTL_UNSET_OWN_DRIVER) ;;
  when (has flags DRIVER_INPUT)
    (input_driver_ctl RARCH_INPUT_CTL_UNSET_OWN_DRIVER) ;;
  when (has flags DRIVER_CAMERA)
    (camera_driver_ctl RARCH_CAMERA_CTL_UNSET_OWN_DRIVER) ;;
  when (has flags DRIVER_LOCATION)
    (location_driver_ctl RARCH_LOCATION_CTL_UNSET_OWN_DRIVER) ;;
  menu_driver_ctl RARCH_MENU_CTL_SET_OWN_DRIVER ;;
  when (has flags (Z.lor DRIVER_VIDEO DRIVER_AUDIO))
    driver_adjust_system_rates ;;
  when (has flags DRIVER_VIDEO) (
    video_driver_ctl RARCH_DISPLAY_CTL_MONITOR_RESET None ;;
    video_driver_ctl RARCH_DISPLAY_CTL_INIT None ;;
    ack <- video_driver_ctl RARCH_DISPLAY_CTL_IS_VIDEO_CACHE_CONTEXT_ACK None ;;
    reset <- andM (negb ack) hw_render_context_reset_set ;;
    when reset hw_render_context_reset ;;
    video_driver_ctl RARCH_DISPLAY_CTL_UNSET_VIDEO_CACHE_CONTEXT_ACK None ;;
    runloop_ctl_SET_FRAME_TIME_LAST) ;;
  when (has flags DRIVER_AUDIO)
    (audio_driver_ctl RARCH_AUDIO_CTL_INIT) ;;
  camera <- andM (has flags DRIVER_CAMERA)
              (camera_driver_ctl RARCH_CAMERA_CTL_IS_ACTIVE) ;;
  when camera init_camera ;;
  location <- andM (has flags DRIVER_LOCATION)
                (location_driver_ctl RARCH_LOCATION_CTL_IS_ACTIVE) ;;
  when location init_location ;;
  menu_update_libretro_info ;;
  when (has flags DRIVER_MENU) (
    init_menu ;;
    menu_driver_ctl RARCH_MENU_CTL_CONTEXT_RESET) ;;
  when (has flags (Z.lor DRIVER_VIDEO DRIVER_AUDIO)) (
    nonblock <- input_driver_ctl RARCH_INPUT_CTL_IS_NONBLOCK_STATE ;;
    when nonblock driver_ctl_SET_NONBLOCK_STATE).

(** [uninit_drivers(flags)]. *)
Definition uninit_drivers (flags : Z) : M unit :=
  when (has flags DRIVER_MENU) (
    menu_driver_ctl RARCH_MENU_CTL_CONTEXT_DESTROY ;;
    go <- notM (menu_driver_ctl RARCH_MENU_CTL_OWNS_DRIVER) ;;
    when go (menu_driver_ctl RARCH_MENU_CTL_DEINIT)) ;;
  go <- andM (has flags DRIVER_LOCATION)
          (notM (location_driver_ctl RARCH_LOCATION_CTL_OWNS_DRIVER)) ;;
  when go (location_driver_ctl RARCH_LOCATION_CTL_DEINIT) ;;
  go <- andM (has flags DRIVER_CAMERA)
          (notM (camera_driver_ctl RARCH_CAMERA_CTL_OWNS_DRIVER)) ;;
  when go (camera_driver_ctl RARCH_CAMERA_CTL_DEINIT) ;;
  when (has flags DRIVER_AUDIO)
    (audio_driver_ctl RARCH_AUDIO_CTL_DEINIT) ;;
  when (has flags DRIVERS_VIDEO_INPUT)
    (video_driver_ctl RARCH_DISPLAY_CTL_DEINIT None) ;;
  go <- andM (has flags DRIVER_VIDEO)
          (notM (video_driver_ctl RARCH_DISPLAY_CTL_OWNS_DRIVER None)) ;;
  when go (video_driver_ctl RARCH_DISPLAY_CTL_DESTROY_DATA None) ;;
  go <- andM (has flags DRIVER_INPUT)
          (notM (input_driver_ctl RARCH_INPUT_CTL_OWNS_DRIVER)) ;;
  when go (input_driver_ctl RARCH_INPUT_CTL_DESTROY_DATA) ;;
  go <- andM (has flags DRIVER_AUDIO)
          (notM (audio_driver_ctl RARCH_AUDIO_CTL_OWNS_DRIVER)) ;;
  when go (audio_driver_ctl RARCH_AUDIO_CTL_DESTROY_DATA).

(** [driver_ctl(state, data)].  A payload of the wrong type for a command
    that reads it is a faulting run. *)
Definition driver_ctl (state : driver_ctl_state) (data : data_ptr) : M bool :=
  match state with
  | RARCH_DRIVER_CTL_DEINIT =>
      video_driver_ctl RARCH_DISPLAY_CTL_DESTROY None ;;
      audio_driver_ctl RARCH_AUDIO_CTL_DESTROY ;;
      input_driver_ctl RARCH_INPUT_CTL_DESTROY ;;
      menu_driver_ctl RARCH_MENU_CTL_DESTROY ;;
      location_driver_ctl RARCH_LOCATION_CTL_DESTROY ;;
      camera_driver_ctl RARCH_CAMERA_CTL_DESTROY ;;
      retro_uninit_libretro_cbs ;;
      ret false
  | RARCH_DRIVER_CTL_UNINIT =>
      match data with
      | NULL => ret false
      | ptr_int flags => uninit_drivers flags ;; ret true
      | _ => fault
      end
  | RARCH_DRIVER_CTL_INIT =>
      match data with
      | NULL => ret false
      | ptr_int flags => init_drivers flags ;; ret true
      | _ => fault
      end
  | RARCH_DRIVER_CTL_INIT_PRE =>
      audio_driver_ctl RARCH_AUDIO_CTL_FIND_DRIVER ;;
      video_driver_ctl RARCH_DISPLAY_CTL_FIND_DRIVER None ;;
      input_driver_ctl RARCH_INPUT_CTL_FIND_DRIVER ;;
      find_camera_driver ;;
      find_location_driver ;;
      find_menu_driver ;;
      ret false
  | RARCH_DRIVER_CTL_SET_REFRESH_RATE =>
      match data with
      | ptr_float hz =>
          video_monitor_set_refresh_rate hz ;;
          audio_driver_ctl RARCH_AUDIO_CTL_MONITOR_SET_REFRESH_RATE ;;
          driver_adjust_system_rates ;;
          ret false
      | _ => fault
      end
  | RARCH_DRIVER_CTL_SET_NONBLOCK_STATE => driver_ctl_SET_NONBLOCK_STATE
  | RARCH_DRIVER_CTL_UPDATE_SYSTEM_AV_INFO =>
      match data with
      | NULL => ret false
      | ptr_av_info info => driver_update_system_av_info info
      | _ => fault
      end
  | RARCH_DRIVER_CTL_NONE => ret false
  end.

End Lifecycle.

(* ================================================================= *)
(** ** Vocabulary of the statements *)

(** What the loop of [find_driver_index] can return. *)
Definition index_result (tbl : list driver) (drv : string) (r : Z) : Prop :=
  (r = -1 /\ forall i, ~ is_index_of tbl drv i) \/ is_index_of tbl drv r.

(** [runs P m l Q]: from a state in [P] the computation [m] does not
    fault, makes exactly the calls [l], in this order, and ends with a
    result and in a state in [Q]. *)
Definition runs {A : Type} (P : world -> Prop) (m : M A) (l : list call)
    (Q : A -> world -> Prop) : Prop :=
  forall s, P s ->
    match m s with
    | Some (a, s') => calls s' = calls s ++ l /\ Q a s'
    | None => False
    end.

(** [l] when [b] holds, no call otherwise. *)
Definition when_calls (b : bool) (l : list call) : list call :=
  if b then l else [].

(** [s] agrees with [s0] on everything but the calls recorded. *)
Definition unchanged (s0 s : world) : Prop :=
  env s = env s0 /\
  (forall c, own_driver s c = own_driver s0 c) /\
  video_cache_context_ack s = video_cache_context_ack s0 /\
  system_av_info s = system_av_info s0.

Section LifecycleCalls.

Context {cfg : build_config} {cm : command_model}.

(** The calls of one run of each function of driver.c, as a list that
    follows the function statement by statement; the lemmas [*_runs]
    below prove that the function makes exactly these calls. *)

(** [driver_set_nonblock_state]. *)
Definition nonblock_calls (e : frontend_env) : list call :=
  when_calls (video_is_active e && video_driver_ptr e)
    [call_video RARCH_DISPLAY_CTL_SET_NONBLOCK_STATE
       (Some (if negb (settings_video_vsync e) || system_force_nonblock e
              then true else input_nonblock_state e))]
  ++ [call_audio_driver_set_nonblocking_state (input_nonblock_state e)].

(** [driver_adjust_system_rates]. *)
Definition adjust_rates_calls (e : frontend_env) : list call :=
  [call_audio RARCH_AUDIO_CTL_MONITOR_ADJUST_SYSTEM_RATES;
   call_video RARCH_DISPLAY_CTL_MONITOR_ADJUST_SYSTEM_RATES None]
  ++ when_calls (video_driver_ptr e)
       (if system_force_nonblock e
        then [call_event_command EVENT_CMD_VIDEO_SET_NONBLOCKING_STATE]
        else nonblock_calls e).

(** [menu_update_libretro_info]. *)
Definition libretro_info_calls (e : frontend_env) : list call :=
  when_calls (menu_system_info e)
    (when_calls (negb HAVE_DYNAMIC) [call_retro_get_system_info]
     ++ [call_event_command EVENT_CMD_CORE_INFO_INIT;
         call_event_command EVENT_CMD_LOAD_CORE_PERSIST]).

(** [uninit_drivers], from the Ownership Flags [own] it finds. *)
Definition uninit_calls (flags : Z) (own : category -> bool) : list call :=
  when_calls (has flags DRIVER_MENU)
    ([call_menu RARCH_MENU_CTL_CONTEXT_DESTROY]
     ++ when_calls (negb (own MENU)) [call_menu RARCH_MENU_CTL_DEINIT])
  ++ when_calls (has flags DRIVER_LOCATION && negb (own LOCATION))
       [call_location RARCH_LOCATION_CTL_DEINIT]
  ++ when_calls (has flags DRIVER_CAMERA && negb (own CAMERA))
       [call_camera RARCH_CAMERA_CTL_DEINIT]
  ++ when_calls (has flags DRIVER_AUDIO)
       [call_audio RARCH_AUDIO_CTL_DEINIT]
  ++ when_calls (has flags DRIVERS_VIDEO_INPUT)
       [call_video RARCH_DISPLAY_CTL_DEINIT None]
  ++ when_calls (has flags DRIVER_VIDEO && negb (own VIDEO))
       [call_video RARCH_DISPLAY_CTL_DESTROY_DATA None]
  ++ when_calls (has flags DRIVER_INPUT && negb (own INPUT))
       [call_input RARCH_INPUT_CTL_DESTROY_DATA]
  ++ when_calls (has flags DRIVER_AUDIO && negb (own AUDIO))
       [call_audio RARCH_AUDIO_CTL_DESTROY_DATA].

(** [init_drivers], from the environment and the cache-context
    acknowledgement it finds. *)
Definition init_calls (flags : Z) (e : frontend_env) (ack : bool) : list call :=
  when_calls (has flags DRIVER_VIDEO)
    [call_video RARCH_DISPLAY_CTL_UNSET_OWN_DRIVER None]
  ++ when_calls (has flags DRIVER_AUDIO)
       [call_audio RARCH_AUDIO_CTL_UNSET_OWN_DRIVER]
  ++ when_calls (has flags DRIVER_INPUT)
       [call_input RARCH_INPUT_CTL_UNSET_OWN_DRIVER]
  ++ when_calls (has flags DRIVER_CAMERA)
       [call_camera RARCH_CAMERA_CTL_UNSET_OWN_DRIVER]
  ++ when_calls (has flags DRIVER_LOCATION)
       [call_location RARCH_LOCATION_CTL_UNSET_OWN_DRIVER]
  ++ [call_menu RARCH_MENU_CTL_SET_OWN_DRIVER]
  ++ when_calls (has flags (Z.lor DRIVER_VIDEO DRIVER_AUDIO))
       (adjust_rates_calls e)
  ++ when_calls (has flags DRIVER_VIDEO)
       ([call_video RARCH_DISPLAY_CTL_MONITOR_RESET None;
         call_video RARCH_DISPLAY_CTL_INIT None]
        ++ when_calls (negb ack && hw_render_has_context_reset e)
             [call_hw_render_context_reset]
        ++ [call_video RARCH_DISPLAY_CTL_UNSET_VIDEO_CACHE_CONTEXT_ACK None;
            call_runloop_set_frame_time_last])
  ++ when_calls (has flags DRIVER_AUDIO) [call_audio RARCH_AUDIO_CTL_INIT]
  ++ when_calls (has flags DRIVER_CAMERA && camera_is_active e)
       [call_init_camera]
  ++ when_calls (has flags DRIVER_LOCATION && location_is_active e)
       [call_init_location]
  ++ libretro_info_calls e
  ++ when_calls (has flags DRIVER_MENU)
       [call_init_menu; call_menu RARCH_MENU_CTL_CONTEXT_RESET]
  ++ when_calls (has flags (Z.lor DRIVER_VIDEO DRIVER_AUDIO))
       (when_calls (input_nonblock_state e) (nonblock_calls e)).

(** The bit of the bitmask that selects a category. *)
Definition flag_of (c : category) : Z :=
  match c with
  | VIDEO => DRIVER_VIDEO
  | AUDIO => DRIVER_AUDIO
  | INPUT => DRIVER_INPUT
  | CAMERA => DRIVER_CAMERA
  | LOCATION => DRIVER_LOCATION
  | MENU => DRIVER_MENU
  end.

(** [init_drivers] writes the Ownership Flag of the categories of the
    bitmask, and that of the menu whatever the bitmask. *)
Definition own_written (flags : Z) (c : category) : bool :=
  match c with
  | MENU => true
  | _ => has flags (flag_of c)
  end.

(** The Ownership Flags once the categories [done] have been dealt with:
    cleared, except the menu's, which is set. *)
Definition init_own (flags : Z) (done : list category) (own0 : category -> bool)
    (c : category) : bool :=
  if existsb (category_eqb c) done && own_written flags c
  then category_eqb c MENU
  else own0 c.

(** The state between two statements of [init_drivers] started in [s0]:
    the flags of [done] are written; the acknowledgement is still the
    initial one as long as [keep_ack]. *)
Definition init_state (flags : Z) (done : list category) (keep_ack : bool)
    (s0 s : world) : Prop :=
  env s = env s0 /\
  (forall c, own_driver s c = init_own flags done (own_driver s0) c) /\
  (keep_ack = true ->
   video_cache_context_ack s = video_cache_context_ack s0) /\
  system_av_info s = system_av_info s0.

(** The categories in the order [init_drivers] gets done with them,
    last first. *)
Definition all_categories : list category :=
  [MENU; LOCATION; CAMERA; INPUT; AUDIO; VIDEO].



(** The call by which [uninit_drivers] gives up the resource of a
    category, and which it makes only after asking [OWNS_DRIVER]. *)
Definition releases (c : category) (k : call) : bool :=
  match c, k with
  | MENU, call_menu RARCH_MENU_CTL_DEINIT
  | LOCATION, call_location RARCH_LOCATION_CTL_DEINIT
  | CAMERA, call_camera RARCH_CAMERA_CTL_DEINIT
  | VIDEO, call_video RARCH_DISPLAY_CTL_DESTROY_DATA _
  | INPUT, call_input RARCH_INPUT_CTL_DESTROY_DATA
  | AUDIO, call_audio RARCH_AUDIO_CTL_DESTROY_DATA => true
  | _, _ => false
  end.

(** The state the reinit of [driver_update_system_av_info] ends in: the
    record has been written, then the command raised, then the cycle
    run. *)
Definition reinit_state (info : retro_system_av_info) (s : world) : world :=
  reinit_cycle
    (record_call (call_event_command EVENT_CMD_REINIT)
       (set_system_av_info info s)).

(** The two calls that restart a recording. *)
Definition is_record_deinit (k : call) : bool :=
  match k with
  | call_event_command EVENT_CMD_RECORD_DEINIT => true
  | _ => false
  end.

Definition is_record_init (k : call) : bool :=
  match k with
  | call_event_command EVENT_CMD_RECORD_INIT => true
  | _ => false
  end.

End LifecycleCalls.

(* ================================================================= *)
(** ** Concrete instances *)

(** Modelled from the spec: driver.h is not part of the sources.  One bit
    per category, and the aggregate VIDEO|INPUT. *)
Definition sample_config : build_config := {|
  DRIVER_AUDIO := 1;
  DRIVER_VIDEO := 2;
  DRIVER_INPUT := 4;
  DRIVER_CAMERA := 8;
  DRIVER_LOCATION := 16;
  DRIVER_MENU := 32;
  DRIVERS_VIDEO_INPUT := Z.lor 2 4;
  HAVE_DYNAMIC := false
|}.

Definition sample_env : frontend_env := {|
  video_is_active := true;
  video_driver_ptr := true;
  hw_render_has_context_reset := false;
  camera_is_active := false;
  location_is_active := false;
  input_nonblock_state := false;
  settings_video_vsync := true;
  system_force_nonblock := false;
  menu_system_info := true;
  recording_data_ptr := true
|}.

Definition sample_av_info : retro_system_av_info := {|
  geometry := {| base_width := 400; base_height := 240;
                 max_width := 400; max_height := 240;
                 aspect_ratio := 0%float |};
  timing := {| fps := 60%float; sample_rate := 32730%float |}
|}.

(** A state in which no category is flagged as owned elsewhere, and one
    in which every category is. *)
Definition sample_world : world :=
  mk_world sample_env (fun _ => false) false sample_av_info [].

Definition owned_world : world :=
  mk_world sample_env (fun _ => true) false sample_av_info [].

(** A reinit cycle for the concrete runs: the video driver is brought up
    again, and its Ownership Flag is clear afterwards. *)
Definition sample_reinit (s : world) : world :=
  record_call (call_video RARCH_DISPLAY_CTL_INIT None)
    (set_own_driver VIDEO false s).

#[global] Instance sample_commands : command_model := {|
  reinit_cycle := sample_reinit;
  reinit_cycle_av_info := fun _ => eq_refl
|}.

(* ================================================================= *)
(** ** Vocabulary of the further properties *)

(** A name folded to lower case, character by character. *)
Fixpoint lower (s : string) : string :=
  match s with
  | EmptyString => EmptyString
  | String c r => String (tolower c) (lower r)
  end.

(** The hashes [find_driver_nonempty] has a [case] for. *)
Definition driver_hashes : list Z :=
  [HASH_CAMERA_DRIVER; HASH_LOCATION_DRIVER; HASH_MENU_DRIVER;
   HASH_INPUT_DRIVER; HASH_INPUT_JOYPAD_DRIVER; HASH_VIDEO_DRIVER;
   HASH_AUDIO_DRIVER; HASH_RECORD_DRIVER; HASH_AUDIO_RESAMPLER_DRIVER].

(** [l] is [m] with some of its elements left out. *)
Fixpoint subseq (l m : list call) : Prop :=
  match m with
  | [] => l = []
  | y :: m' =>
      match l with
      | [] => True
      | x :: l' => (x = y /\ subseq l' m') \/ subseq l m'
      end
  end.

(** Every call [uninit_drivers] can make, in the order of its
    statements. *)
Definition uninit_order : list call :=
  [call_menu RARCH_MENU_CTL_CONTEXT_DESTROY;
   call_menu RARCH_MENU_CTL_DEINIT;
   call_location RARCH_LOCATION_CTL_DEINIT;
   call_camera RARCH_CAMERA_CTL_DEINIT;
   call_audio RARCH_AUDIO_CTL_DEINIT;
   call_video RARCH_DISPLAY_CTL_DEINIT None;
   call_video RARCH_DISPLAY_CTL_DESTROY_DATA None;
   call_input RARCH_INPUT_CTL_DESTROY_DATA;
   call_audio RARCH_AUDIO_CTL_DESTROY_DATA].

(** The call [uninit_drivers] makes for a category after asking
    [OWNS_DRIVER]. *)
Definition release_call (c : category) : call :=
  match c with
  | MENU => call_menu RARCH_MENU_CTL_DEINIT
  | LOCATION => call_location RARCH_LOCATION_CTL_DEINIT
  | CAMERA => call_camera RARCH_CAMERA_CTL_DEINIT
  | VIDEO => call_video RARCH_DISPLAY_CTL_DESTROY_DATA None
  | INPUT => call_input RARCH_INPUT_CTL_DESTROY_DATA
  | AUDIO => call_audio RARCH_AUDIO_CTL_DESTROY_DATA
  end.

(** The calls of [init_drivers] that bring a backend up. *)
Definition is_init_call (k : call) : bool :=
  match k with
  | call_video RARCH_DISPLAY_CTL_INIT _
  | call_audio RARCH_AUDIO_CTL_INIT
  | call_init_camera
  | call_init_location
  | call_init_menu => true
  | _ => false
  end.

(** The payload is null or points to what the command reads. *)
Definition payload_fits (state : driver_ctl_state) (data : data_ptr) : bool :=
  match state, data with
  | RARCH_DRIVER_CTL_UNINIT, (NULL | ptr_int _)
  | RARCH_DRIVER_CTL_INIT, (NULL | ptr_int _)
  | RARCH_DRIVER_CTL_SET_REFRESH_RATE, (NULL | ptr_float _)
  | RARCH_DRIVER_CTL_UPDATE_SYSTEM_AV_INFO, (NULL | ptr_av_info _) => true
  | (RARCH_DRIVER_CTL_NONE | RARCH_DRIVER_CTL_DEINIT
     | RARCH_DRIVER_CTL_INIT_PRE | RARCH_DRIVER_CTL_SET_NONBLOCK_STATE), _ => true
  | _, _ => false
  end.

(** The environment is that of [s0] and the cache-context acknowledgement
    is [a]. *)
Definition ack_state (a : bool) (s0 s : world) : Prop :=
  env s = env s0 /\ video_cache_context_ack s = a.

Section LifecycleMoreVocabulary.

Context {cfg : build_config}.

(** None of the seven bits of driver.h is in the bitmask. *)
Definition no_category (flags : Z) : Prop :=
  has flags DRIVER_AUDIO = false /\ has flags DRIVER_VIDEO = false /\
  has flags DRIVER_INPUT = false /\ has flags DRIVER_CAMERA = false /\
  has flags DRIVER_LOCATION = false /\ has flags DRIVER_MENU = false /\
  has flags DRIVERS_VIDEO_INPUT = false.

End LifecycleMoreVocabulary.

(** Tables in which an entry with an empty name stands before the end. *)
Definition gap_registries : registries := {|
  camera_drivers := [];
  location_drivers := [];
  menu_ctx_drivers := [];
  input_drivers := [];
  joypad_drivers := [];
  video_drivers := [];
  audio_drivers := [];
  record_drivers := [mk "ffmpeg"; mk ""; mk "null"];
  resampler_drivers := []
|}.

(** A frontend whose input driver is in nonblocking state. *)
Definition nonblock_env : frontend_env := {|
  video_is_active := true;
  video_driver_ptr := true;
  hw_render_has_context_reset := true;
  camera_is_active := false;
  location_is_active := false;
  input_nonblock_state := true;
  settings_video_vsync := true;
  system_force_nonblock := false;
  menu_system_info := false;
  recording_data_ptr := false
|}.

Definition nonblock_world : world :=
  mk_world nonblock_env (fun _ => false) false sample_av_info [].

(* ================================================================= *)
(** * Facts about strings and machine integers *)

Lemma int_wrap_small (z : Z) : 0 <= z < 2 ^ 31 -> int_wrap z = z.
Proof.
  intros Hz. unfold int_wrap.
  rewrite Z.mod_small by lia.
  destruct (z <? 2 ^ 31) eqn:E; [reflexivity | apply Z.ltb_ge in E; lia].
Qed.

Lemma int_wrap_negative (z : Z) : 2 ^ 31 <= z < 2 ^ 32 -> int_wrap z < 0.
Proof.
  intros Hz. unfold int_wrap.
  rewrite Z.mod_small by lia.
  destruct (z <? 2 ^ 31) eqn:E; [apply Z.ltb_lt in E; lia | lia].
Qed.

Lemma uint_wrap_small (z : Z) : 0 <= z < 2 ^ 32 -> uint_wrap z = z.
Proof. intros Hz. unfold uint_wrap. apply Z.mod_small. lia. Qed.

Lemma string_is_empty_true (s : string) :
  string_is_empty s = true -> s = EmptyString.
Proof. destruct s; [reflexivity | discriminate]. Qed.

Lemma string_is_empty_false (s : string) :
  string_is_empty s = false -> s <> EmptyString.
Proof. destruct s; [discriminate | intros _ H; discriminate H]. Qed.

Lemma strcmp_refl (s : string) : strcmp s s = 0.
Proof.
  induction s as [|c s IH]; cbn; [reflexivity|].
  rewrite Z.eqb_refl. exact IH.
Qed.

Lemma truncate_all (n : nat) : forall s : string,
  (String.length s <= n)%nat -> truncate n s = s.
Proof.
  induction n as [|n IH]; intros [|c s] Hlen; cbn in *; try reflexivity.
  - lia.
  - f_equal. apply IH. lia.
Qed.

Lemma strlcpy_fits (dst src : string) (len : N) :
  (N.of_nat (String.length src) < len)%N -> strlcpy dst src len = src.
Proof.
  intros Hlen. unfold strlcpy.
  destruct len as [|p] eqn:E; [lia|].
  apply truncate_all. lia.
Qed.

Lemma nth_error_Some_lt {A : Type} (l : list A) (n : nat) (a : A) :
  nth_error l n = Some a -> (n < length l)%nat.
Proof. intros H. apply nth_error_Some. congruence. Qed.

Lemma strlcpy_scratch (s : string) (d : driver) :
  strlcpy s (ident d) 256 = scratch_name d.
Proof. reflexivity. Qed.

(* ================================================================= *)
(** * The driver selection resolver *)

Section ResolverFacts.

Variable msg_hash_calculate : string -> Z.
Variable R : registries.

Local Abbreviation table := (drivers_of msg_hash_calculate R).
Local Abbreviation lookup := (find_driver_nonempty msg_hash_calculate R).
Local Abbreviation index := (find_driver_index msg_hash_calculate R).
Local Abbreviation loop := (find_driver_index_loop msg_hash_calculate R).

(** The switch of [find_driver_nonempty] is a lookup in the table the
    label dispatches to. *)
Lemma find_driver_nonempty_eq (label : string) (i : Z) (s : string) (len : N) :
  lookup label i s len = find_in (table label) i s len.
Proof.
  unfold find_driver_nonempty, drivers_of.
  repeat match goal with
         | |- context [if ?b then _ else _] => destruct b
         end; try reflexivity.
  unfold find_in, find_handle.
  destruct (i <? 0); [reflexivity|].
  destruct (Z.to_nat i); reflexivity.
Qed.

Lemma find_in_some (tbl : list driver) (i : Z) (s : string) (len : N)
    (d : driver) :
  0 <= i -> nth_error tbl (Z.to_nat i) = Some d ->
  find_in tbl i s len = (Some d, strlcpy s (ident d) len).
Proof.
  intros Hi Hd. unfold find_in, find_ident, find_handle.
  destruct (i <? 0) eqn:E; [apply Z.ltb_lt in E; lia|].
  rewrite Hd. reflexivity.
Qed.

Lemma find_in_none (tbl : list driver) (i : Z) (s : string) (len : N) :
  i < 0 \/ nth_error tbl (Z.to_nat i) = None ->
  find_in tbl i s len = (None, s).
Proof.
  intros H. unfold find_in, find_handle.
  destruct (i <? 0) eqn:E; [reflexivity|].
  destruct H as [H|H]; [apply Z.ltb_ge in E; lia|].
  rewrite H. reflexivity.
Qed.

Lemma is_index_of_unique (tbl : list driver) (drv : string) (i j : Z) :
  is_index_of tbl drv i -> is_index_of tbl drv j -> i = j.
Proof.
  intros (Hi & di & Hdi & _ & Hmi & Hbi) (Hj & dj & Hdj & _ & Hmj & Hbj).
  destruct (Z.lt_trichotomy i j) as [Hlt | [Heq | Hgt]]; [|exact Heq|].
  - destruct (Hbj (Z.to_nat i) di) as [_ Hno]; [lia | exact Hdi |].
    contradiction.
  - destruct (Hbi (Z.to_nat j) dj) as [_ Hno]; [lia | exact Hdj |].
    contradiction.
Qed.

(** No index is reported once an entry scanned so far rules it out. *)
Lemma no_index_below (tbl : list driver) (drv : string) (k : nat) :
  (forall j d', (j < k)%nat -> nth_error tbl j = Some d' ->
     scratch_name d' <> EmptyString /\ strcasecmp drv (scratch_name d') <> 0) ->
  forall i, is_index_of tbl drv i -> Z.of_nat k <= i.
Proof.
  intros Hscan i (Hi & d & Hd & _ & Hm & _).
  destruct (Z_lt_le_dec i (Z.of_nat k)) as [Hlt|Hle]; [|exact Hle].
  destruct (Hscan (Z.to_nat i) d) as [_ Hno]; [lia | exact Hd | contradiction].
Qed.

Lemma find_driver_index_loop_spec (label drv : string) :
  forall (fuel k : nat) (str : string),
    Z.of_nat k <= 2 ^ 31 ->
    (length (table label) < k + fuel)%nat ->
    (forall j d', (j < k)%nat -> nth_error (table label) j = Some d' ->
       scratch_name d' <> EmptyString /\
       strcasecmp drv (scratch_name d') <> 0) ->
    index_result (table label) drv (loop fuel label (Z.of_nat k) str drv).
Proof.
  induction fuel as [|fuel IH]; intros k str Hk Hfuel Hscan.
  - left. split; [reflexivity|]. intros i Hidx.
    pose proof (no_index_below _ _ _ Hscan i Hidx) as Hle.
    destruct Hidx as (Hi & d & Hd & _).
    apply nth_error_Some_lt in Hd. lia.
  - cbn [find_driver_index_loop]. rewrite find_driver_nonempty_eq.
    destruct (Z.eq_dec (Z.of_nat k) (2 ^ 31)) as [Hmax|Hlt].
    + rewrite find_in_none.
      * left. split; [reflexivity|]. intros i Hidx.
        pose proof (no_index_below _ _ _ Hscan i Hidx) as Hle.
        destruct Hidx as (Hi & _). lia.
      * left. apply int_wrap_negative. lia.
    + rewrite int_wrap_small by lia.
      destruct (nth_error (table label) k) as [d|] eqn:Hd.
      * rewrite (find_in_some _ _ _ _ d) by (rewrite ?Nat2Z.id; auto; lia).
        rewrite strlcpy_scratch.
        destruct (string_is_empty (scratch_name d)) eqn:Hempty.
        { left. split; [reflexivity|]. intros i Hidx.
          pose proof (no_index_below _ _ _ Hscan i Hidx) as Hle.
          apply string_is_empty_true in Hempty.
          destruct Hidx as (Hi & d' & Hd' & Hne & _ & Hbefore).
          destruct (Z.eq_dec i (Z.of_nat k)) as [->|Hik].
          - rewrite Nat2Z.id in Hd'. congruence.
          - destruct (Hbefore k d) as [Hne' _]; [lia | exact Hd | contradiction]. }
        apply string_is_empty_false in Hempty.
        destruct (strcasecmp drv (scratch_name d) =? 0) eqn:Hcmp.
        { right. apply Z.eqb_eq in Hcmp. split; [lia|].
          exists d. rewrite Nat2Z.id.
          split; [exact Hd|]. split; [exact Hempty|]. split; [exact Hcmp|].
          intros j d' Hj Hd'. exact (Hscan j d' Hj Hd'). }
        apply Z.eqb_neq in Hcmp.
        rewrite uint_wrap_small by lia.
        replace (Z.of_nat k + 1) with (Z.of_nat (S k)) by lia.
        apply IH; [lia | lia |].
        intros j d' Hj Hd'.
        destruct (Nat.eq_dec j k) as [->|Hjk].
        { assert (d' = d) by congruence. subst d'. split; assumption. }
        apply (Hscan j d'); [lia | exact Hd'].
      * rewrite find_in_none by (right; rewrite Nat2Z.id; exact Hd).
        left. split; [reflexivity|]. intros i Hidx.
        pose proof (no_index_below _ _ _ Hscan i Hidx) as Hle.
        destruct Hidx as (Hi & d & Hd' & _).
        apply nth_error_None in Hd. apply nth_error_Some_lt in Hd'. lia.
Qed.

Lemma find_driver_index_result (label drv : string) :
  index_result (table label) drv (index label drv).
Proof.
  unfold find_driver_index.
  apply (find_driver_index_loop_spec label drv
           (S (length (table label))) 0 EmptyString).
  - cbn; lia.
  - lia.
  - intros j d' Hj. lia.
Qed.

(** More fuel than the table has entries never changes the result: the
    loop has left by then. *)
Lemma find_driver_index_loop_fuel (label drv : string) (fuel : nat) :
  (length (table label) < fuel)%nat ->
  loop fuel label 0 EmptyString drv = index label drv.
Proof.
  intros Hfuel.
  assert (H1 : index_result (table label) drv
                 (loop fuel label 0 EmptyString drv)).
  { apply (find_driver_index_loop_spec label drv fuel 0 EmptyString).
    - cbn; lia.
    - lia.
    - intros j d' Hj. lia. }
  pose proof (find_driver_index_result label drv) as H2.
  destruct H1 as [[E1 N1] | I1], H2 as [[E2 N2] | I2].
  - congruence.
  - elim (N1 _ I2).
  - elim (N2 _ I1).
  - exact (is_index_of_unique _ _ _ _ I1 I2).
Qed.

Lemma find_driver_index_found (label drv : string) (i : Z) :
  is_index_of (table label) drv i -> index label drv = i.
Proof.
  intros Hi.
  destruct (find_driver_index_result label drv) as [[_ Hno] | Hidx].
  - elim (Hno _ Hi).
  - exact (is_index_of_unique _ _ _ _ Hidx Hi).
Qed.

Lemma find_driver_index_not_found (label drv : string) :
  (forall i, ~ is_index_of (table label) drv i) -> index label drv = -1.
Proof.
  intros Hno.
  destruct (find_driver_index_result label drv) as [[E _] | Hidx].
  - exact E.
  - elim (Hno _ Hidx).
Qed.

Lemma find_driver_index_nonneg (label drv : string) :
  0 <= index label drv -> is_index_of (table label) drv (index label drv).
Proof.
  intros Hge.
  destruct (find_driver_index_result label drv) as [[E _] | Hidx].
  - lia.
  - exact Hidx.
Qed.

Lemma is_index_of_entry_before (tbl : list driver) (drv : string) (i : Z) :
  is_index_of tbl drv i -> 0 < i ->
  exists d, nth_error tbl (Z.to_nat (i - 1)) = Some d.
Proof.
  intros (Hi & d & Hd & _) Hpos.
  apply nth_error_Some_lt in Hd.
  destruct (nth_error tbl (Z.to_nat (i - 1))) as [d'|] eqn:E.
  - exists d'. reflexivity.
  - apply nth_error_None in E. lia.
Qed.

(** C6.  [find_prev_driver]: when the current name is found at an index
    above 0 the buffer receives the name of the entry one below (as
    [strlcpy] copies it into [len] bytes, the whole name when it fits)
    and the call succeeds; when the name is found at index 0 or is not
    found, the call fails and the buffer is unchanged. *)
Theorem find_prev_driver_spec (label s : string) (len : N) :
  (forall i, is_index_of (table label) s i /\ 0 < i ->
     exists d, nth_error (table label) (Z.to_nat (i - 1)) = Some d /\
       find_prev_driver msg_hash_calculate R label s len
       = (true, strlcpy s (ident d) len) /\
       ((N.of_nat (String.length (ident d)) < len)%N ->
        find_prev_driver msg_hash_calculate R label s len = (true, ident d)))
  /\ (is_index_of (table label) s 0 \/
      (forall i, ~ is_index_of (table label) s i) <->
      find_prev_driver msg_hash_calculate R label s len = (false, s))
  /\ (index label s <= 0 ->
      find_prev_driver msg_hash_calculate R label s len = (false, s)).
Proof.
  assert (Hfail : index label s <= 0 ->
            find_prev_driver msg_hash_calculate R label s len = (false, s)).
  { intros Hle. unfold find_prev_driver.
    destruct (0 <? index label s) eqn:E; [apply Z.ltb_lt in E; lia|].
    reflexivity. }
  split; [|split].
  - intros i [Hidx Hpos].
    destruct (is_index_of_entry_before _ _ _ Hidx Hpos) as [d Hd].
    exists d. split; [exact Hd|].
    assert (Hrun : find_prev_driver msg_hash_calculate R label s len
                   = (true, strlcpy s (ident d) len)).
    { unfold find_prev_driver.
      rewrite (find_driver_index_found _ _ _ Hidx).
      destruct (0 <? i) eqn:E; [|apply Z.ltb_ge in E; lia].
      rewrite find_driver_nonempty_eq.
      rewrite (find_in_some _ _ _ _ d) by (auto; lia).
      reflexivity. }
    split; [exact Hrun|].
    intros Hfit. rewrite Hrun. rewrite strlcpy_fits by exact Hfit.
    reflexivity.
  - split.
    + intros [H0 | Hno]; apply Hfail.
      * rewrite (find_driver_index_found _ _ _ H0). lia.
      * rewrite (find_driver_index_not_found _ _ Hno). lia.
    + intros Hrun. unfold find_prev_driver in Hrun.
      destruct (0 <? index label s) eqn:E; [discriminate|].
      apply Z.ltb_ge in E.
      destruct (find_driver_index_result label s) as [[_ Hno] | Hidx].
      * right. exact Hno.
      * left. destruct Hidx as [Hrange Hrest].
        assert (E0 : index label s = 0) by lia.
        rewrite E0 in *. split; assumption.
  - exact Hfail.
Qed.

(** The sentinel is never its own successor: on ["null"] the call fails
    and leaves the buffer alone. *)
Lemma find_next_driver_null (label : string) (len : N) :
  find_next_driver msg_hash_calculate R label "null" len
  = (false, "null"%string).
Proof.
  unfold find_next_driver.
  replace (strcmp "null" "null" =? 0) with true by reflexivity.
  rewrite andb_false_r. reflexivity.
Qed.

Lemma select_next_n_null (label : string) (len : N) (n : nat) :
  select_next_n msg_hash_calculate R n label "null" len = "null"%string.
Proof.
  induction n as [|n IH]; [reflexivity|].
  cbn [select_next_n]. rewrite find_next_driver_null. exact IH.
Qed.

(** C5.  [find_next_driver]: the call fails and leaves the buffer
    unchanged when the current name is not found or is the sentinel
    ["null"]; it succeeds only when the name is found at an index >= 0
    and is not the sentinel, and the only thing it ever writes is the name
    of the entry at index + 1; from ["null"] any number of calls stays at
    ["null"]. *)
Theorem find_next_driver_spec (label s : string) (len : N) :
  ((forall i, ~ is_index_of (table label) s i) \/ s = "null"%string ->
   find_next_driver msg_hash_calculate R label s len = (false, s))
  /\ (forall s', find_next_driver msg_hash_calculate R label s len = (true, s') ->
      0 <= index label s /\ is_index_of (table label) s (index label s) /\
      s <> "null"%string /\
      (s' = s \/
       exists d, nth_error (table label) (Z.to_nat (index label s + 1)) = Some d /\
         s' = strlcpy s (ident d) len))
  /\ (forall b s', find_next_driver msg_hash_calculate R label s len = (b, s') ->
      s' <> s -> b = true)
  /\ (forall i d, is_index_of (table label) s i -> strcmp s "null" <> 0 ->
      i + 1 < 2 ^ 31 ->
      nth_error (table label) (Z.to_nat (i + 1)) = Some d ->
      find_next_driver msg_hash_calculate R label s len
      = (true, strlcpy s (ident d) len))
  /\ (forall n, select_next_n msg_hash_calculate R n label "null" len
                = "null"%string).
Proof.
  split; [|split; [|split; [|split]]].
  - intros [Hno | ->].
    + unfold find_next_driver.
      rewrite (find_driver_index_not_found _ _ Hno). reflexivity.
    + apply find_next_driver_null.
  - intros s' Hrun. unfold find_next_driver in Hrun.
    destruct (0 <=? index label s) eqn:Ei; [|discriminate].
    destruct (strcmp s "null" =? 0) eqn:En; [discriminate|].
    cbn [andb negb] in Hrun. apply Z.leb_le in Ei. apply Z.eqb_neq in En.
    pose proof (find_driver_index_nonneg _ _ Ei) as Hidx.
    split; [exact Ei|]. split; [exact Hidx|].
    split; [intros ->; apply En, strcmp_refl|].
    rewrite find_driver_nonempty_eq in Hrun.
    injection Hrun as Hs'.
    unfold find_in, find_ident, find_handle in Hs'.
    destruct (int_wrap (index label s + 1) <? 0) eqn:Ew;
      [left; symmetry; exact Hs'|].
    apply Z.ltb_ge in Ew.
    assert (Hw : int_wrap (index label s + 1) = index label s + 1).
    { destruct Hidx as [Hrange _].
      destruct (Z.eq_dec (index label s + 1) (2 ^ 31)) as [E|E].
      - pose proof (int_wrap_negative (index label s + 1)). lia.
      - apply int_wrap_small. lia. }
    rewrite Hw in Hs'.
    destruct (nth_error (table label) (Z.to_nat (index label s + 1)))
      as [d|] eqn:Hd.
    + right. exists d. split; [reflexivity | symmetry; exact Hs'].
    + left. symmetry. exact Hs'.
  - intros b s' Hrun Hneq. unfold find_next_driver in Hrun.
    destruct ((0 <=? index label s) && negb (strcmp s "null" =? 0));
      injection Hrun as <- Hs'; [reflexivity | congruence].
  - intros i d Hidx Hnull Hsmall Hd. unfold find_next_driver.
    rewrite (find_driver_index_found _ _ _ Hidx).
    destruct Hidx as [Hrange _].
    destruct (0 <=? i) eqn:Ei; [|apply Z.leb_gt in Ei; lia].
    destruct (strcmp s "null" =? 0) eqn:En; [apply Z.eqb_eq in En; contradiction|].
    cbn [andb negb]. rewrite int_wrap_small by lia.
    rewrite find_driver_nonempty_eq.
    rewrite (find_in_some _ _ _ _ d) by (auto; lia).
    reflexivity.
  - intros n. apply select_next_n_null.
Qed.

(** ** Further properties of the resolver *)

Lemma truncate_length (n : nat) : forall s : string,
  (String.length (truncate n s) <= n)%nat.
Proof.
  induction n as [|n IH]; intros [|c s]; cbn; try lia.
  specialize (IH s). lia.
Qed.

Lemma strlcpy_bound (dst src : string) (len : N) :
  strlcpy dst src len = dst \/
  (N.of_nat (String.length (strlcpy dst src len)) < len)%N.
Proof.
  unfold strlcpy. destruct len as [|p]; [left; reflexivity|].
  right. pose proof (truncate_length (N.to_nat (N.pos p - 1)) src). lia.
Qed.

Lemma strcasecmp_refl (s : string) : strcasecmp s s = 0.
Proof.
  induction s as [|c s IH]; cbn; [reflexivity|].
  rewrite Z.eqb_refl. exact IH.
Qed.

Lemma strcasecmp_lower (a a' : string) :
  lower a = lower a' -> forall b, strcasecmp a b = strcasecmp a' b.
Proof.
  revert a'. induction a as [|c a IH]; intros [|c' a'] Hl b;
    try discriminate Hl; [reflexivity|].
  cbn in Hl. injection Hl as Hc Ha.
  destruct b as [|d b]; cbn; rewrite Hc; [reflexivity|].
  rewrite (IH a' Ha b). reflexivity.
Qed.

Lemma find_driver_index_loop_lower (label drv drv' : string) :
  lower drv = lower drv' ->
  forall fuel i str,
    loop fuel label i str drv = loop fuel label i str drv'.
Proof.
  intros Hl. induction fuel as [|fuel IH]; intros i str; [reflexivity|].
  cbn [find_driver_index_loop].
  destruct (lookup label (int_wrap i) str 256) as [[d|] str'];
    [|reflexivity].
  rewrite (strcasecmp_lower drv drv' Hl str'), IH. reflexivity.
Qed.

(** What [find_driver_nonempty] gives back, in terms of the table. *)
Lemma find_driver_nonempty_cases (label : string) (i : Z) (s : string)
    (len : N) :
  (exists d, lookup label i s len = (Some d, strlcpy s (ident d) len)) \/
  lookup label i s len = (None, s).
Proof.
  rewrite find_driver_nonempty_eq. unfold find_in, find_ident.
  destruct (find_handle (table label) i) as [d|].
  - left. exists d. reflexivity.
  - right. reflexivity.
Qed.

Lemma drivers_of_unknown (label : string) :
  ~ In (msg_hash_calculate label) driver_hashes -> table label = [].
Proof.
  intros Hnot. unfold drivers_of.
  repeat match goal with
         | |- context [?h =? ?c] =>
             destruct (Z.eqb_spec h c) as [?E|?E];
             [exfalso; apply Hnot;
              match goal with H : h = c |- _ => rewrite H end;
              unfold driver_hashes; cbn [In]; auto 15|]
         end.
  reflexivity.
Qed.

Lemma is_index_of_in_range (tbl : list driver) (drv : string) (i : Z) :
  is_index_of tbl drv i -> 0 <= i < Z.of_nat (length tbl).
Proof.
  intros (Hi & d & Hd & _). apply nth_error_Some_lt in Hd. lia.
Qed.

(** X1.  For a label whose hash is none of the nine [HASH_*] constants the
    switch of [find_driver_nonempty] has no arm: it returns NULL and
    leaves the buffer alone at every index, so [find_driver_index] is -1,
    [find_prev_driver] and [find_next_driver] fail without writing, and
    [find_first_driver] reports success without writing. *)
Theorem unknown_label_finds_nothing (label s : string) (len : N)
    (Hunknown : ~ In (msg_hash_calculate label) driver_hashes) :
  (forall i, lookup label i s len = (None, s)) /\
  index label s = -1 /\
  find_first_driver msg_hash_calculate R label s len = (true, s) /\
  find_prev_driver msg_hash_calculate R label s len = (false, s) /\
  find_next_driver msg_hash_calculate R label s len = (false, s).
Proof.
  pose proof (drivers_of_unknown label Hunknown) as Hempty.
  assert (Hnone : forall i, lookup label i s len = (None, s)).
  { intros i. rewrite find_driver_nonempty_eq, Hempty.
    apply find_in_none. destruct (Z_lt_le_dec i 0); [left; lia|].
    right. destruct (Z.to_nat i); reflexivity. }
  assert (Hidx : index label s = -1).
  { apply find_driver_index_not_found. intros i Hi.
    apply is_index_of_in_range in Hi. rewrite Hempty in Hi. cbn in Hi. lia. }
  split; [exact Hnone|]. split; [exact Hidx|].
  split; [|split].
  - unfold find_first_driver. rewrite Hnone. reflexivity.
  - unfold find_prev_driver. rewrite Hidx. reflexivity.
  - unfold find_next_driver. rewrite Hidx. reflexivity.
Qed.

(** X2.  [find_driver_index] returns -1 or an index inside the table; it
    returns [i >= 0] exactly when the entry at [i] is the first whose
    name, as it fits the 256-byte scratch buffer, equals the wanted name
    ignoring case, with no empty name before it; it returns -1 exactly
    when there is no such entry. *)
Theorem find_driver_index_spec (label drv : string) :
  (index label drv = -1 \/
   0 <= index label drv < Z.of_nat (length (table label))) /\
  (forall i, 0 <= i ->
     (index label drv = i <-> is_index_of (table label) drv i)) /\
  (index label drv = -1 <-> forall i, ~ is_index_of (table label) drv i).
Proof.
  split; [|split].
  - destruct (find_driver_index_result label drv) as [[E _] | Hidx].
    + left. exact E.
    + right. exact (is_index_of_in_range _ _ _ Hidx).
  - intros i Hi. split.
    + intros <-. apply find_driver_index_nonneg. exact Hi.
    + apply find_driver_index_found.
  - split.
    + intros E i Hidx.
      rewrite (find_driver_index_found _ _ _ Hidx) in E.
      destruct Hidx as [Hrange _]. lia.
    + apply find_driver_index_not_found.
Qed.

(** X3.  The lookup ignores the case of the wanted name: two names that
    are equal once folded to lower case get the same index. *)
Theorem find_driver_index_ignores_case (label drv drv' : string)
    (Hsame : lower drv = lower drv') :
  index label drv = index label drv'.
Proof.
  unfold find_driver_index.
  apply find_driver_index_loop_lower. exact Hsame.
Qed.

Lemma is_index_of_head (d : driver) (rest : list driver) :
  ident d <> EmptyString -> (String.length (ident d) <= 255)%nat ->
  is_index_of (d :: rest) (ident d) 0.
Proof.
  intros Hne Hlen. split; [lia|]. exists d.
  assert (Hs : scratch_name d = ident d) by (apply truncate_all; exact Hlen).
  split; [reflexivity|]. rewrite Hs.
  split; [exact Hne|]. split; [apply strcasecmp_refl|].
  intros j d' Hj. cbn in Hj. lia.
Qed.

(** X4.  When the first entry of the table has a non-empty name that fits
    both the caller's buffer and the scratch buffer, [find_first_driver]
    writes that name, and looking the written name up gives index 0. *)
Theorem find_first_driver_round_trip (label s : string) (len : N)
    (d : driver) (rest : list driver)
    (Htable : table label = d :: rest)
    (Hname : ident d <> EmptyString)
    (Hfit : (N.of_nat (String.length (ident d)) < len)%N)
    (Hscratch : (String.length (ident d) <= 255)%nat) :
  find_first_driver msg_hash_calculate R label s len = (true, ident d) /\
  index label (ident d) = 0.
Proof.
  split.
  - unfold find_first_driver. rewrite find_driver_nonempty_eq, Htable.
    rewrite (find_in_some _ _ _ _ d) by (cbn; auto; lia).
    cbn [snd]. rewrite strlcpy_fits by exact Hfit. reflexivity.
  - apply find_driver_index_found. rewrite Htable.
    apply is_index_of_head; assumption.
Qed.

(** X5.  Going to the next backend and back: when the current name is
    found at [i] (entry [d0]), is not ["null"], and the entry [d1] at
    [i + 1] is itself found at [i + 1] under its own name, with both
    names fitting the buffer, [find_next_driver] writes the name of [d1]
    and [find_prev_driver] on that name writes the name of [d0]. *)
Theorem find_prev_after_find_next (label s : string) (len : N) (i : Z)
    (d0 d1 : driver)
    (Hcur : is_index_of (table label) s i)
    (Hnull : strcmp s "null" <> 0)
    (Hd0 : nth_error (table label) (Z.to_nat i) = Some d0)
    (Hd1 : nth_error (table label) (Z.to_nat (i + 1)) = Some d1)
    (Hnext : is_index_of (table label) (ident d1) (i + 1))
    (Hfit0 : (N.of_nat (String.length (ident d0)) < len)%N)
    (Hfit1 : (N.of_nat (String.length (ident d1)) < len)%N) :
  find_next_driver msg_hash_calculate R label s len = (true, ident d1) /\
  find_prev_driver msg_hash_calculate R label (ident d1) len
  = (true, ident d0).
Proof.
  assert (Hi : 0 <= i < 2 ^ 31) by apply Hcur.
  assert (Hi1 : 0 <= i + 1 < 2 ^ 31) by apply Hnext.
  split.
  - unfold find_next_driver.
    rewrite (find_driver_index_found _ _ _ Hcur).
    destruct (0 <=? i) eqn:Ei; [|apply Z.leb_gt in Ei; lia].
    destruct (strcmp s "null" =? 0) eqn:En;
      [apply Z.eqb_eq in En; contradiction|].
    cbn [andb negb]. rewrite int_wrap_small by lia.
    rewrite find_driver_nonempty_eq.
    rewrite (find_in_some _ _ _ _ d1) by (auto; lia).
    cbn [snd]. rewrite strlcpy_fits by exact Hfit1. reflexivity.
  - unfold find_prev_driver.
    rewrite (find_driver_index_found _ _ _ Hnext).
    destruct (0 <? i + 1) eqn:Ei; [|apply Z.ltb_ge in Ei; lia].
    replace (i + 1 - 1) with i by lia.
    rewrite find_driver_nonempty_eq.
    rewrite (find_in_some _ _ _ _ d0) by (auto; lia).
    cbn [snd]. rewrite strlcpy_fits by exact Hfit0. reflexivity.
Qed.

(** X6.  None of the three selection functions writes past the buffer:
    what they leave in it is what was there, or is shorter than [len]. *)
Theorem resolver_writes_fit (label s : string) (len : N) :
  forall s',
    s' = snd (find_first_driver msg_hash_calculate R label s len) \/
    s' = snd (find_prev_driver msg_hash_calculate R label s len) \/
    s' = snd (find_next_driver msg_hash_calculate R label s len) ->
    s' = s \/ (N.of_nat (String.length s') < len)%N.
Proof.
  assert (Hlookup : forall i,
            snd (lookup label i s len) = s \/
            (N.of_nat (String.length (snd (lookup label i s len))) < len)%N).
  { intros i.
    destruct (find_driver_nonempty_cases label i s len) as [[d E] | E];
      rewrite E; cbn [snd]; [apply strlcpy_bound | left; reflexivity]. }
  intros s' [-> | [-> | ->]].
  - unfold find_first_driver. cbn [snd]. apply Hlookup.
  - unfold find_prev_driver.
    destruct (0 <? index label s); cbn [snd];
      [apply Hlookup | left; reflexivity].
  - unfold find_next_driver.
    destruct ((0 <=? index label s) && negb (strcmp s "null" =? 0));
      cbn [snd]; [apply Hlookup | left; reflexivity].
Qed.

(** X7.  At the last entry of a table [find_next_driver] finds the
    terminator: when the current name is found at the last index and is
    not ["null"], the call still returns success and the buffer keeps the
    current name. *)
Theorem find_next_driver_at_end (label s : string) (len : N) (i : Z)
    (Hcur : is_index_of (table label) s i)
    (Hnull : strcmp s "null" <> 0)
    (Hlast : i + 1 = Z.of_nat (length (table label))) :
  find_next_driver msg_hash_calculate R label s len = (true, s).
Proof.
  assert (Hi : 0 <= i < 2 ^ 31) by apply Hcur.
  unfold find_next_driver.
  rewrite (find_driver_index_found _ _ _ Hcur).
  destruct (0 <=? i) eqn:Ei; [|apply Z.leb_gt in Ei; lia].
  destruct (strcmp s "null" =? 0) eqn:En;
    [apply Z.eqb_eq in En; contradiction|].
  cbn [andb negb]. rewrite find_driver_nonempty_eq.
  rewrite find_in_none; [reflexivity|].
  destruct (Z.eq_dec (i + 1) (2 ^ 31)) as [E|E].
  - left. apply int_wrap_negative. lia.
  - right. rewrite int_wrap_small by lia.
    apply nth_error_None. lia.
Qed.

(** X8.  An entry with an empty name ends the search: whatever the wanted
    name, the index returned is below the position of the first such
    entry, so that entry and the ones behind it are never selected. *)
Theorem find_driver_index_stops_at_empty_name (label drv : string) (j : nat)
    (d : driver)
    (Hentry : nth_error (table label) j = Some d)
    (Hempty : ident d = EmptyString) :
  index label drv < Z.of_nat j.
Proof.
  destruct (find_driver_index_result label drv) as [[E _] | Hidx].
  - rewrite E. lia.
  - destruct Hidx as (Hi & d' & Hd' & Hne & _ & Hbefore).
    assert (Hs : scratch_name d = EmptyString).
    { unfold scratch_name. rewrite Hempty. reflexivity. }
    destruct (Z_lt_le_dec (index label drv) (Z.of_nat j)) as [Hlt|Hge];
      [exact Hlt|exfalso].
    destruct (Z.eq_dec (index label drv) (Z.of_nat j)) as [Heq|Hneq].
    + rewrite Heq, Nat2Z.id in Hd'. congruence.
    + destruct (Hbefore j d) as [Hne' _]; [lia | exact Hentry | contradiction].
Qed.

End ResolverFacts.

(* ================================================================= *)
(** * The lifecycle coordinator *)

(** ** Runs with their calls *)

Lemma unchanged_refl (s : world) : unchanged s s.
Proof. repeat split. Qed.

Lemma runs_ret {A : Type} (P : world -> Prop) (a : A) (Q : A -> world -> Prop) :
  (forall s, P s -> Q a s) -> runs P (ret a) [] Q.
Proof.
  intros H s Hs. cbn. split; [symmetry; apply app_nil_r | apply H, Hs].
Qed.

Lemma runs_bind {A B : Type} (P : world -> Prop) (m : M A) (f : A -> M B)
    (l1 l2 : list call) (R : A -> world -> Prop) (Q : B -> world -> Prop) :
  runs P m l1 R -> (forall a, runs (R a) (f a) l2 Q) ->
  runs P (bind m f) (l1 ++ l2) Q.
Proof.
  intros Hm Hf s Hs. unfold bind. specialize (Hm s Hs).
  destruct (m s) as [[a s1]|]; [|contradiction].
  destruct Hm as [Hc1 Hr]. specialize (Hf a s1 Hr).
  destruct (f a s1) as [[b s2]|]; [|contradiction].
  destruct Hf as [Hc2 Hq]. split; [|exact Hq].
  rewrite Hc2, Hc1. symmetry. apply app_assoc.
Qed.

(** A query whose answer is known under [P] makes no call and changes
    nothing. *)
Lemma runs_query {A B : Type} (P : world -> Prop) (q : M A) (v : A)
    (f : A -> M B) (l : list call) (Q : B -> world -> Prop) :
  (forall s, P s -> q s = Some (v, s)) -> runs P (f v) l Q ->
  runs P (bind q f) l Q.
Proof.
  intros Hq Hf s Hs. unfold bind. rewrite (Hq s Hs). exact (Hf s Hs).
Qed.

Lemma runs_when {A : Type} (P : world -> Prop) (b : bool) (m : M A)
    (l : list call) (Q : world -> Prop) :
  (b = true -> runs P m l (fun _ => Q)) ->
  (b = false -> forall s, P s -> Q s) ->
  runs P (when b m) (when_calls b l) (fun _ => Q).
Proof.
  intros Ht Hf. unfold when, when_calls. destruct b.
  - rewrite <- (app_nil_r l).
    apply (runs_bind P m _ l [] (fun _ => Q)); [exact (Ht eq_refl)|].
    intros _. apply runs_ret. auto.
  - apply runs_ret. exact (Hf eq_refl).
Qed.

(** A run, as a result. *)
Lemma runs_result {A : Type} (P : world -> Prop) (m : M A) (l : list call)
    (Q : A -> world -> Prop) (s : world) :
  runs P m l Q -> P s ->
  exists a s', m s = Some (a, s') /\ calls s' = calls s ++ l /\ Q a s'.
Proof.
  intros H Hs. specialize (H s Hs).
  destruct (m s) as [[a s']|]; [|contradiction].
  exists a, s'. destruct H. auto.
Qed.

Arguments has : simpl never.

(** Unfold the combinators and the collaborators down to the state. *)
Ltac unfold_m :=
  cbv [bind ret gets modify extern fault when andM orM notM when_calls
       video_driver_ctl audio_driver_ctl input_driver_ctl menu_driver_ctl
       location_driver_ctl camera_driver_ctl video_driver_get_ptr
       recording_driver_get_data_ptr settings_vsync
       system_info_force_nonblock hw_render_context_reset_set
       audio_driver_set_nonblocking_state video_monitor_set_refresh_rate
       event_command runloop_msg_queue_push_new init_camera init_location
       init_menu find_camera_driver find_location_driver find_menu_driver
       hw_render_context_reset runloop_ctl_SET_FRAME_TIME_LAST
       retro_get_system_info retro_uninit_libretro_cbs].

(** Read the state through what is known of it. *)
Ltac norm_state :=
  repeat match goal with
         | H : env _ = env _ |- _ => rewrite H
         | H : forall c, own_driver _ c = _ |- _ => rewrite H
         | H : video_cache_context_ack _ = _ |- _ => rewrite H
         end.

(** Decide every condition the goal branches on, innermost first. *)
Ltac split_conds :=
  cbv [andb orb negb]; cbn; norm_state;
  repeat (match goal with
          | |- context [if ?b then _ else _] =>
              lazymatch b with
              | (if _ then _ else _) => fail
              | _ => destruct b eqn:?
              end
          end; cbn; norm_state).

(** The calls recorded, put in the shape [calls s ++ l]. *)
Ltac calls_eq := cbn; rewrite <- ?app_assoc, ?app_nil_r; reflexivity.

Section LifecycleFacts.

Context {cfg : build_config} {cm : command_model}.

Local Open Scope m_scope.

(** *** The helpers of [driver_ctl] *)

Lemma driver_set_nonblock_state_runs (s0 : world) :
  runs (unchanged s0) driver_set_nonblock_state (nonblock_calls (env s0))
    (fun _ => unchanged s0).
Proof.
  intros s (He & Ho & Ha & Hv).
  unfold driver_set_nonblock_state, nonblock_calls. unfold_m.
  split_conds; try discriminate;
    (split; [calls_eq | repeat split; assumption]).
Qed.

Lemma driver_adjust_system_rates_runs (s0 : world) :
  runs (unchanged s0) driver_adjust_system_rates (adjust_rates_calls (env s0))
    (fun _ => unchanged s0).
Proof.
  intros s (He & Ho & Ha & Hv).
  unfold driver_adjust_system_rates, adjust_rates_calls,
    driver_ctl_SET_NONBLOCK_STATE, driver_set_nonblock_state, nonblock_calls.
  unfold_m.
  split_conds; try discriminate;
    (split; [calls_eq | repeat split; assumption]).
Qed.

Lemma menu_update_libretro_info_runs (s0 : world) :
  runs (unchanged s0) menu_update_libretro_info (libretro_info_calls (env s0))
    (fun _ => unchanged s0).
Proof.
  intros s (He & Ho & Ha & Hv).
  unfold menu_update_libretro_info, libretro_info_calls. unfold_m.
  split_conds; try discriminate;
    (split; [calls_eq | repeat split; assumption]).
Qed.

(** Lifting a run that only records calls to any property of the state
    that does not look at the calls. *)
Lemma runs_lift {A : Type} (P : world -> Prop) (m : M A)
    (l : frontend_env -> list call) (e0 : frontend_env) :
  (forall s1, runs (unchanged s1) m (l (env s1)) (fun _ => unchanged s1)) ->
  (forall s s', P s -> unchanged s s' -> P s') ->
  (forall s, P s -> env s = e0) ->
  runs P m (l e0) (fun _ => P).
Proof.
  intros Hm Hstable Henv s Hs.
  specialize (Hm s s (unchanged_refl s)).
  destruct (m s) as [[a s']|]; [|contradiction].
  destruct Hm as [Hc Hu]. rewrite (Henv s Hs) in Hc.
  split; [exact Hc | exact (Hstable s s' Hs Hu)].
Qed.

(** *** [uninit_drivers] *)

(** One statement that only records calls. *)
Ltac leaf :=
  let s := fresh "s" in
  intros s (?He & ?Ho & ?Ha & ?Hv);
  unfold_m; split_conds; try discriminate;
  (split; [calls_eq | repeat split; assumption]).

(** The answer of a condition [flags & bit && !owns]. *)
Ltac answer :=
  let s := fresh "s" in
  intros s (?He & ?Ho & ?Ha & ?Hv);
  unfold_m; split_conds; try discriminate; reflexivity.

Lemma uninit_drivers_runs (flags : Z) (s0 : world) :
  runs (unchanged s0) (uninit_drivers flags)
    (uninit_calls flags (own_driver s0)) (fun _ => unchanged s0).
Proof.
  unfold uninit_drivers, uninit_calls.
  apply runs_bind with (R := fun _ => unchanged s0); [leaf | intros _].
  apply runs_query
    with (v := has flags DRIVER_LOCATION && negb (own_driver s0 LOCATION));
    [answer|].
  apply runs_bind with (R := fun _ => unchanged s0); [leaf | intros _].
  apply runs_query
    with (v := has flags DRIVER_CAMERA && negb (own_driver s0 CAMERA));
    [answer|].
  apply runs_bind with (R := fun _ => unchanged s0); [leaf | intros _].
  apply runs_bind with (R := fun _ => unchanged s0); [leaf | intros _].
  apply runs_bind with (R := fun _ => unchanged s0); [leaf | intros _].
  apply runs_query
    with (v := has flags DRIVER_VIDEO && negb (own_driver s0 VIDEO));
    [answer|].
  apply runs_bind with (R := fun _ => unchanged s0); [leaf | intros _].
  apply runs_query
    with (v := has flags DRIVER_INPUT && negb (own_driver s0 INPUT));
    [answer|].
  apply runs_bind with (R := fun _ => unchanged s0); [leaf | intros _].
  apply runs_query
    with (v := has flags DRIVER_AUDIO && negb (own_driver s0 AUDIO));
    [answer|].
  leaf.
Qed.

(** *** [init_drivers] *)

Lemma init_state_unchanged (flags : Z) (done : list category) (k : bool)
    (s0 s s' : world) :
  init_state flags done k s0 s -> unchanged s s' -> init_state flags done k s0 s'.
Proof.
  intros (He & Ho & Ha & Hv) (He' & Ho' & Ha' & Hv').
  repeat split.
  - congruence.
  - intros c. rewrite Ho'. apply Ho.
  - intros Hk. rewrite Ha'. apply Ha, Hk.
  - congruence.
Qed.

(** The state after one statement of [init_drivers]. *)
Ltac init_post :=
  unfold init_state; cbn; repeat split; try assumption; try congruence;
  try (intros; discriminate);
  try (let c := fresh "c" in
       intros c;
       match goal with
       | H : forall c, own_driver _ c = _ |- _ => try rewrite H
       end;
       unfold init_own, own_written, flag_of;
       destruct c; cbn;
       repeat match goal with
              | H : has _ _ = _ |- _ => rewrite H
              end;
       cbn; rewrite ?andb_false_r, ?andb_true_r; reflexivity).

Ltac init_leaf :=
  let s := fresh "s" in
  intros s (?He & ?Ho & ?Ha & ?Hv);
  try match goal with
      | H : true = true -> _ |- _ => specialize (H eq_refl)
      end;
  unfold_m; split_conds; try discriminate;
  (split; [calls_eq | init_post]).

Lemma init_drivers_runs (flags : Z) (s0 : world) :
  runs (init_state flags [] true s0) (init_drivers flags)
    (init_calls flags (env s0) (video_cache_context_ack s0))
    (fun _ => init_state flags all_categories false s0).
Proof.
  unfold init_drivers, init_calls, all_categories.
  apply runs_bind with (R := fun _ => init_state flags [VIDEO] true s0);
    [init_leaf | intros _].
  apply runs_bind with (R := fun _ => init_state flags [AUDIO; VIDEO] true s0);
    [init_leaf | intros _].
  apply runs_bind
    with (R := fun _ => init_state flags [INPUT; AUDIO; VIDEO] true s0);
    [init_leaf | intros _].
  apply runs_bind
    with (R := fun _ => init_state flags [CAMERA; INPUT; AUDIO; VIDEO] true s0);
    [init_leaf | intros _].
  apply runs_bind
    with (R := fun _ =>
                 init_state flags [LOCATION; CAMERA; INPUT; AUDIO; VIDEO] true s0);
    [init_leaf | intros _].
  apply runs_bind
    with (R := fun _ =>
                 init_state flags [MENU; LOCATION; CAMERA; INPUT; AUDIO; VIDEO]
                   true s0);
    [init_leaf | intros _].
  set (P := init_state flags [MENU; LOCATION; CAMERA; INPUT; AUDIO; VIDEO] true s0).
  set (P' := init_state flags [MENU; LOCATION; CAMERA; INPUT; AUDIO; VIDEO] false s0).
  assert (HP : forall s, P s -> P' s).
  { intros s (He & Ho & Ha & Hv). repeat split; auto; intros; discriminate. }
  (* driver_adjust_system_rates *)
  apply runs_bind with (R := fun _ => P).
  { apply runs_when; [intros _ | auto].
    apply (runs_lift P _ adjust_rates_calls).
    - apply driver_adjust_system_rates_runs.
    - apply init_state_unchanged.
    - intros s Hs. apply Hs. }
  intros _.
  (* the video block *)
  apply runs_bind with (R := fun _ => P').
  { unfold P, P'. init_leaf. }
  intros _.
  apply runs_bind with (R := fun _ => P'); [unfold P'; init_leaf | intros _].
  apply runs_query
    with (v := has flags DRIVER_CAMERA && camera_is_active (env s0)).
  { unfold P'. intros s (He & Ho & Ha & Hv). unfold_m. split_conds; reflexivity. }
  apply runs_bind with (R := fun _ => P'); [unfold P'; init_leaf | intros _].
  apply runs_query
    with (v := has flags DRIVER_LOCATION && location_is_active (env s0)).
  { unfold P'. intros s (He & Ho & Ha & Hv). unfold_m. split_conds; reflexivity. }
  apply runs_bind with (R := fun _ => P'); [unfold P'; init_leaf | intros _].
  (* menu_update_libretro_info *)
  apply runs_bind with (R := fun _ => P').
  { apply (runs_lift P' _ libretro_info_calls).
    - apply menu_update_libretro_info_runs.
    - apply init_state_unchanged.
    - intros s Hs. apply Hs. }
  intros _.
  apply runs_bind with (R := fun _ => P'); [unfold P'; init_leaf | intros _].
  (* the closing nonblock step *)
  apply runs_when; [intros _ | auto].
  apply runs_query with (v := input_nonblock_state (env s0)).
  { unfold P'. intros s (He & Ho & Ha & Hv). unfold_m. rewrite He. reflexivity. }
  apply runs_when; [intros _ | auto].
  unfold driver_ctl_SET_NONBLOCK_STATE.
  rewrite <- (app_nil_r (nonblock_calls (env s0))).
  apply runs_bind with (R := fun _ => P').
  - apply (runs_lift P' _ nonblock_calls).
    + apply driver_set_nonblock_state_runs.
    + apply init_state_unchanged.
    + intros s Hs. apply Hs.
  - intros _. apply runs_ret. auto.
Qed.

(** *** Runs of [driver_ctl] *)

Lemma has_lor (flags a b : Z) :
  has flags (Z.lor a b) = has flags a || has flags b.
Proof.
  unfold has. rewrite Z.land_lor_distr_r.
  destruct (Z.land flags a =? 0) eqn:Ea, (Z.land flags b =? 0) eqn:Eb; cbn;
    rewrite ?Z.eqb_eq, ?Z.eqb_neq in *.
  - rewrite Ea, Eb. reflexivity.
  - apply negb_true_iff, Z.eqb_neq. intros H.
    apply Z.lor_eq_0_iff in H. tauto.
  - apply negb_true_iff, Z.eqb_neq. intros H.
    apply Z.lor_eq_0_iff in H. tauto.
  - apply negb_true_iff, Z.eqb_neq. intros H.
    apply Z.lor_eq_0_iff in H. tauto.
Qed.

Lemma driver_ctl_uninit_run (flags : Z) (s : world) :
  exists s',
    driver_ctl RARCH_DRIVER_CTL_UNINIT (ptr_int flags) s = Some (true, s') /\
    calls s' = calls s ++ uninit_calls flags (own_driver s) /\
    unchanged s s'.
Proof.
  destruct (runs_result _ _ _ _ s (uninit_drivers_runs flags s)
              (unchanged_refl s)) as ([] & s' & Hrun & Hcalls & Hsame).
  exists s'. split; [|split; assumption].
  cbn. unfold bind. rewrite Hrun. reflexivity.
Qed.

Lemma init_state_start (flags : Z) (s : world) : init_state flags [] true s s.
Proof. repeat split. Qed.

Lemma driver_ctl_init_run (flags : Z) (s : world) :
  exists s',
    driver_ctl RARCH_DRIVER_CTL_INIT (ptr_int flags) s = Some (true, s') /\
    calls s' =
      calls s ++ init_calls flags (env s) (video_cache_context_ack s) /\
    init_state flags all_categories false s s'.
Proof.
  destruct (runs_result _ _ _ _ s (init_drivers_runs flags s)
              (init_state_start flags s)) as ([] & s' & Hrun & Hcalls & Hpost).
  exists s'. split; [|split; assumption].
  cbn. unfold bind. rewrite Hrun. reflexivity.
Qed.

Lemma driver_ctl_set_nonblock_state_run (data : data_ptr) (s : world) :
  exists s',
    driver_ctl RARCH_DRIVER_CTL_SET_NONBLOCK_STATE data s = Some (false, s') /\
    calls s' = calls s ++ nonblock_calls (env s) /\
    unchanged s s'.
Proof.
  destruct (runs_result _ _ _ _ s (driver_set_nonblock_state_runs s)
              (unchanged_refl s)) as ([] & s' & Hrun & Hcalls & Hsame).
  exists s'. split; [|split; assumption].
  cbn. unfold driver_ctl_SET_NONBLOCK_STATE, bind. rewrite Hrun. reflexivity.
Qed.

Lemma driver_ctl_set_refresh_rate_run (hz : float) (s : world) :
  exists s',
    driver_ctl RARCH_DRIVER_CTL_SET_REFRESH_RATE (ptr_float hz) s
    = Some (false, s') /\
    calls s' =
      calls s ++
      [call_video_monitor_set_refresh_rate hz;
       call_audio RARCH_AUDIO_CTL_MONITOR_SET_REFRESH_RATE]
      ++ adjust_rates_calls (env s) /\
    unchanged s s'.
Proof.
  set (s1 := record_call (call_audio RARCH_AUDIO_CTL_MONITOR_SET_REFRESH_RATE)
               (record_call (call_video_monitor_set_refresh_rate hz) s)).
  assert (H1 : unchanged s1 s1) by apply unchanged_refl.
  destruct (runs_result _ _ _ _ s1 (driver_adjust_system_rates_runs s1) H1)
    as ([] & s' & Hrun & Hcalls & Hsame).
  exists s'. split; [|split].
  - change (driver_ctl RARCH_DRIVER_CTL_SET_REFRESH_RATE (ptr_float hz) s)
      with ((driver_adjust_system_rates ;; ret false) s1).
    unfold bind. rewrite Hrun. reflexivity.
  - rewrite Hcalls. unfold s1. cbn. rewrite <- !app_assoc. reflexivity.
  - exact Hsame.
Qed.

Lemma driver_ctl_deinit_run (data : data_ptr) (s : world) :
  exists s',
    driver_ctl RARCH_DRIVER_CTL_DEINIT data s = Some (false, s') /\
    calls s' =
      calls s ++
      [call_video RARCH_DISPLAY_CTL_DESTROY None;
       call_audio RARCH_AUDIO_CTL_DESTROY;
       call_input RARCH_INPUT_CTL_DESTROY;
       call_menu RARCH_MENU_CTL_DESTROY;
       call_location RARCH_LOCATION_CTL_DESTROY;
       call_camera RARCH_CAMERA_CTL_DESTROY;
       call_retro_uninit_libretro_cbs] /\
    unchanged s s'.
Proof.
  eexists. split; [reflexivity|]. split; [calls_eq | repeat split].
Qed.

Lemma driver_ctl_init_pre_run (data : data_ptr) (s : world) :
  exists s',
    driver_ctl RARCH_DRIVER_CTL_INIT_PRE data s = Some (false, s') /\
    calls s' =
      calls s ++
      [call_audio RARCH_AUDIO_CTL_FIND_DRIVER;
       call_video RARCH_DISPLAY_CTL_FIND_DRIVER None;
       call_input RARCH_INPUT_CTL_FIND_DRIVER;
       call_find_camera_driver;
       call_find_location_driver;
       call_find_menu_driver] /\
    unchanged s s'.
Proof.
  eexists. split; [reflexivity|]. split; [calls_eq | repeat split].
Qed.

Lemma driver_ctl_update_run (info : retro_system_av_info) (s : world) :
  exists s',
    driver_ctl RARCH_DRIVER_CTL_UPDATE_SYSTEM_AV_INFO (ptr_av_info (Some info)) s
    = Some (true, s') /\
    calls s' =
      calls (reinit_state info s) ++
      when_calls (recording_data_ptr (env (reinit_state info s)))
        [call_runloop_msg_queue_push_new
           MSG_RESTARTING_RECORDING_DUE_TO_DRIVER_REINIT 2 180 false;
         call_event_command EVENT_CMD_RECORD_DEINIT;
         call_event_command EVENT_CMD_RECORD_INIT] /\
    unchanged (reinit_state info s) s'.
Proof.
  cbn. unfold driver_update_system_av_info. unfold_m.
  fold (reinit_state info s).
  destruct (recording_data_ptr (env (reinit_state info s))); cbn;
    (eexists; split; [reflexivity|]; split; [calls_eq | repeat split]).
Qed.

(** *** What the calls of a run say *)

Lemma in_when_calls (b : bool) (l : list call) (k : call) :
  In k (when_calls b l) -> b = true /\ In k l.
Proof. destruct b; cbn; [auto | contradiction]. Qed.

(** Take a membership in a closed form apart, segment by segment. *)
Ltac in_split :=
  repeat match goal with
         | H : In _ (_ ++ _) |- _ => apply in_app_or in H
         | H : In _ (when_calls _ _) |- _ => apply in_when_calls in H
         | H : _ \/ _ |- _ => destruct H as [H|H]
         | H : _ /\ _ |- _ => destruct H as [? ?]
         | H : In _ [] |- _ => destruct H
         | H : In _ (_ :: _) |- _ => destruct H as [H|H]
         | H : In _ (if ?b then _ else _) |- _ => destruct b eqn:?
         | H : _ && _ = true |- _ => apply andb_true_iff in H
         | H : negb _ = true |- _ => apply negb_true_iff in H
         end.


Lemma uninit_calls_releases (flags : Z) (own : category -> bool)
    (c : category) (k : call) :
  In k (uninit_calls flags own) -> releases c k = true ->
  has flags (flag_of c) = true /\ own c = false.
Proof.
  unfold uninit_calls. intros H Hrel.
  in_split; subst; destruct c; try discriminate Hrel; cbn; auto.
Qed.

Lemma uninit_calls_menu_deinit (flags : Z) (own : category -> bool) :
  has flags DRIVER_MENU = true ->
  (In (call_menu RARCH_MENU_CTL_DEINIT) (uninit_calls flags own) <->
   own MENU = false).
Proof.
  intros Hmenu. split.
  - intros H.
    exact (proj2 (uninit_calls_releases flags own MENU _ H eq_refl)).
  - intros Hown. unfold uninit_calls, when_calls.
    rewrite Hmenu, Hown. cbn. auto.
Qed.


Lemma init_own_all (flags : Z) (own0 : category -> bool) (c : category) :
  init_own flags all_categories own0 c =
  if own_written flags c then category_eqb c MENU else own0 c.
Proof. destruct c; reflexivity. Qed.

(** *** Properties of [driver_ctl] *)

(** C4.  With a null bitmask pointer INIT and UNINIT return failure and
    leave the state exactly as it was: no call is made, no flag is
    written. *)
Theorem driver_ctl_null_bitmask (s : world) :
  driver_ctl RARCH_DRIVER_CTL_INIT NULL s = Some (false, s) /\
  driver_ctl RARCH_DRIVER_CTL_UNINIT NULL s = Some (false, s).
Proof. split; reflexivity. Qed.

(** C1, as amended.  UPDATE_SYSTEM_AV_INFO returns success whenever its
    payload pointer is non-null and leads to an A/V info record; with a
    null payload pointer it returns failure and does nothing. *)
Theorem driver_ctl_update_system_av_info_result (s : world) :
  (forall info, exists s',
     driver_ctl RARCH_DRIVER_CTL_UPDATE_SYSTEM_AV_INFO
       (ptr_av_info (Some info)) s = Some (true, s')) /\
  driver_ctl RARCH_DRIVER_CTL_UPDATE_SYSTEM_AV_INFO NULL s = Some (false, s).
Proof.
  split; [|reflexivity].
  intros info.
  destruct (driver_ctl_update_run info s) as (s' & Hrun & _).
  exists s'. exact Hrun.
Qed.


(** C3, as amended.  When the Ownership Flag of a category is true,
    UNINIT with that category in the bitmask does not make the call that
    gives its resource up: DEINIT for menu, location and camera,
    DESTROY_DATA for video, input and audio; that call is only ever made
    for a category of the bitmask whose flag is clear.  For the menu,
    UNINIT makes the menu's DEINIT exactly when the flag is clear.  The
    audio DEINIT and the joint video/input DEINIT are made whenever their
    bit is in the bitmask, and the DEINIT command makes every category's
    DESTROY call, whatever the Ownership Flags. *)
Theorem uninit_respects_ownership (flags : Z) (s : world) :
  (exists s' new,
     driver_ctl RARCH_DRIVER_CTL_UNINIT (ptr_int flags) s = Some (true, s') /\
     calls s' = calls s ++ new /\
     (forall c k, own_driver s c = true -> In k new -> releases c k = false) /\
     (forall c k, In k new -> releases c k = true ->
        has flags (flag_of c) = true /\ own_driver s c = false) /\
     (has flags DRIVER_MENU = true ->
        (In (call_menu RARCH_MENU_CTL_DEINIT) new <-> own_driver s MENU = false)) /\
     (has flags DRIVER_AUDIO = true ->
        In (call_audio RARCH_AUDIO_CTL_DEINIT) new) /\
     (has flags DRIVERS_VIDEO_INPUT = true ->
        In (call_video RARCH_DISPLAY_CTL_DEINIT None) new))
  /\
  (forall data, exists s',
     driver_ctl RARCH_DRIVER_CTL_DEINIT data s = Some (false, s') /\
     calls s' =
       calls s ++
       [call_video RARCH_DISPLAY_CTL_DESTROY None;
        call_audio RARCH_AUDIO_CTL_DESTROY;
        call_input RARCH_INPUT_CTL_DESTROY;
        call_menu RARCH_MENU_CTL_DESTROY;
        call_location RARCH_LOCATION_CTL_DESTROY;
        call_camera RARCH_CAMERA_CTL_DESTROY;
        call_retro_uninit_libretro_cbs]).
Proof.
  split.
  - destruct (driver_ctl_uninit_run flags s) as (s' & Hrun & Hcalls & Hsame).
    exists s', (uninit_calls flags (own_driver s)).
    split; [exact Hrun|]. split; [exact Hcalls|].
    split; [|split; [|split; [|split]]].
    + intros c k Hown Hin.
      destruct (releases c k) eqn:Hrel; [|reflexivity].
      destruct (uninit_calls_releases flags _ c k Hin Hrel) as [_ Hclear].
      congruence.
    + intros c k. apply uninit_calls_releases.
    + apply uninit_calls_menu_deinit.
    + intros Haudio. unfold uninit_calls, when_calls. rewrite Haudio.
      rewrite !in_app_iff. cbn. tauto.
    + intros Hvi. unfold uninit_calls, when_calls. rewrite Hvi.
      rewrite !in_app_iff. cbn. tauto.
  - intros data.
    destruct (driver_ctl_deinit_run data s) as (s' & Hrun & Hcalls & _).
    exists s'. split; assumption.
Qed.

(** C7.  SET_NONBLOCK_STATE sets the video backend, when video is active
    and a video driver exists, to (input nonblocking) OR (vsync disabled)
    OR (forced nonblock), and then always sets the audio backend to the
    input nonblocking flag; these are its only calls.  With vsync on, no
    forced nonblock and input blocking, video is set to blocking. *)
Theorem set_nonblock_state_spec (data : data_ptr) (s : world) :
  let e := env s in
  exists s',
    driver_ctl RARCH_DRIVER_CTL_SET_NONBLOCK_STATE data s = Some (false, s') /\
    unchanged s s' /\
    calls s' =
      calls s ++
      when_calls (video_is_active e && video_driver_ptr e)
        [call_video RARCH_DISPLAY_CTL_SET_NONBLOCK_STATE
           (Some (input_nonblock_state e || negb (settings_video_vsync e)
                  || system_force_nonblock e))]
      ++ [call_audio_driver_set_nonblocking_state (input_nonblock_state e)] /\
    (video_is_active e = true /\ video_driver_ptr e = true /\
     settings_video_vsync e = true /\ system_force_nonblock e = false /\
     input_nonblock_state e = false ->
     calls s' =
       calls s ++
       [call_video RARCH_DISPLAY_CTL_SET_NONBLOCK_STATE (Some false);
        call_audio_driver_set_nonblocking_state false]).
Proof.
  intros e.
  destruct (driver_ctl_set_nonblock_state_run data s)
    as (s' & Hrun & Hcalls & Hsame).
  exists s'. split; [exact Hrun|]. split; [exact Hsame|].
  unfold nonblock_calls in Hcalls. fold e in Hcalls.
  assert (Hor : (if negb (settings_video_vsync e) || system_force_nonblock e
                 then true else input_nonblock_state e)
                = input_nonblock_state e || negb (settings_video_vsync e)
                  || system_force_nonblock e).
  { destruct (settings_video_vsync e), (system_force_nonblock e),
      (input_nonblock_state e); reflexivity. }
  rewrite Hor in Hcalls. split; [exact Hcalls|].
  intros (Ha & Hp & Hvs & Hf & Hn).
  rewrite Hcalls, Ha, Hp, Hvs, Hf, Hn. reflexivity.
Qed.

(** C8.  UPDATE_SYSTEM_AV_INFO with a record first writes it as the
    system A/V info, then triggers a reinit: the command is raised, and
    the reinit cycle runs, on the state [s1] that already holds the
    record.  In the state [s2] the cycle ends in, when a recording
    session is active the command announces the restart and issues one
    record-deinit followed by one record-init and nothing else; without
    a recording session it issues nothing more.  The record is the
    current value at the end. *)
Theorem update_system_av_info_spec (info : retro_system_av_info) (s : world) :
  exists s1 s2 s' new,
    s1 = record_call (call_event_command EVENT_CMD_REINIT)
           (set_system_av_info info s) /\
    system_av_info s1 = info /\
    calls s1 = calls s ++ [call_event_command EVENT_CMD_REINIT] /\
    s2 = reinit_cycle s1 /\
    driver_ctl RARCH_DRIVER_CTL_UPDATE_SYSTEM_AV_INFO (ptr_av_info (Some info)) s
    = Some (true, s') /\
    system_av_info s' = info /\
    calls s' = calls s2 ++ new /\
    new =
      when_calls (recording_data_ptr (env s2))
        [call_runloop_msg_queue_push_new
           MSG_RESTARTING_RECORDING_DUE_TO_DRIVER_REINIT 2 180 false;
         call_event_command EVENT_CMD_RECORD_DEINIT;
         call_event_command EVENT_CMD_RECORD_INIT] /\
    length (filter is_record_deinit new)
    = (if recording_data_ptr (env s2) then 1 else 0)%nat /\
    length (filter is_record_init new)
    = (if recording_data_ptr (env s2) then 1 else 0)%nat /\
    unchanged s2 s'.
Proof.
  destruct (driver_ctl_update_run info s)
    as (s' & Hrun & Hcalls & Hsame).
  exists (record_call (call_event_command EVENT_CMD_REINIT)
            (set_system_av_info info s)),
    (reinit_state info s), s'.
  eexists.
  split; [reflexivity|]. split; [reflexivity|]. split; [reflexivity|].
  split; [reflexivity|]. split; [exact Hrun|]. split.
  { destruct Hsame as (_ & _ & _ & Hav). rewrite Hav.
    unfold reinit_state. rewrite reinit_cycle_av_info. reflexivity. }
  split; [exact Hcalls|]. split; [reflexivity|].
  split; [|split];
    [destruct (recording_data_ptr (env (reinit_state info s)));
       reflexivity ..|].
  exact Hsame.
Qed.

(** C9.  [driver_ctl] answers [true] only for UNINIT and INIT given a
    bitmask and for UPDATE_SYSTEM_AV_INFO given a payload, and to these it
    does answer [true]; DEINIT, INIT_PRE, SET_NONBLOCK_STATE and
    SET_REFRESH_RATE run to their end and answer [false]. *)
Theorem driver_ctl_true_only_with_payload :
  (forall state data s s',
     driver_ctl state data s = Some (true, s') ->
     (state = RARCH_DRIVER_CTL_UNINIT \/ state = RARCH_DRIVER_CTL_INIT \/
      state = RARCH_DRIVER_CTL_UPDATE_SYSTEM_AV_INFO) /\ data <> NULL)
  /\ (forall flags s, exists s',
        driver_ctl RARCH_DRIVER_CTL_UNINIT (ptr_int flags) s = Some (true, s'))
  /\ (forall flags s, exists s',
        driver_ctl RARCH_DRIVER_CTL_INIT (ptr_int flags) s = Some (true, s'))
  /\ (forall info s, exists s',
        driver_ctl RARCH_DRIVER_CTL_UPDATE_SYSTEM_AV_INFO
          (ptr_av_info (Some info)) s = Some (true, s'))
  /\ (forall data s, exists s',
        driver_ctl RARCH_DRIVER_CTL_DEINIT data s = Some (false, s'))
  /\ (forall data s, exists s',
        driver_ctl RARCH_DRIVER_CTL_INIT_PRE data s = Some (false, s'))
  /\ (forall data s, exists s',
        driver_ctl RARCH_DRIVER_CTL_SET_NONBLOCK_STATE data s = Some (false, s'))
  /\ (forall hz s, exists s',
        driver_ctl RARCH_DRIVER_CTL_SET_REFRESH_RATE (ptr_float hz) s
        = Some (false, s')).
Proof.
  repeat split.
  - destruct state; try (left; reflexivity); try (right; left; reflexivity);
      try (right; right; reflexivity); exfalso.
    + discriminate H.
    + destruct (driver_ctl_deinit_run data s) as (s1 & Hrun & _). congruence.
    + destruct (driver_ctl_init_pre_run data s) as (s1 & Hrun & _). congruence.
    + destruct data; try discriminate H.
      destruct (driver_ctl_set_refresh_rate_run hz s) as (s1 & Hrun & _).
      congruence.
    + destruct (driver_ctl_set_nonblock_state_run data s) as (s1 & Hrun & _).
      congruence.
  - intros ->. destruct state; try discriminate H.
    destruct (driver_ctl_set_nonblock_state_run NULL s) as (s1 & Hrun & _).
    congruence.
  - intros flags s.
    destruct (driver_ctl_uninit_run flags s) as (s' & Hrun & _). eauto.
  - intros flags s.
    destruct (driver_ctl_init_run flags s) as (s' & Hrun & _). eauto.
  - intros info s.
    destruct (driver_ctl_update_run info s) as (s' & Hrun & _). eauto.
  - intros data s.
    destruct (driver_ctl_deinit_run data s) as (s' & Hrun & _). eauto.
  - intros data s.
    destruct (driver_ctl_init_pre_run data s) as (s' & Hrun & _). eauto.
  - intros data s.
    destruct (driver_ctl_set_nonblock_state_run data s) as (s' & Hrun & _).
    eauto.
  - intros hz s.
    destruct (driver_ctl_set_refresh_rate_run hz s) as (s' & Hrun & _). eauto.
Qed.

(** C10.  SET_REFRESH_RATE reads through its payload pointer without a
    check: with a null pointer the run faults, where INIT and UNINIT
    return failure; with a pointer to a rate it runs to its end, handing
    the rate to the video monitor first. *)
Theorem set_refresh_rate_needs_payload (s : world) :
  driver_ctl RARCH_DRIVER_CTL_SET_REFRESH_RATE NULL s = None /\
  driver_ctl RARCH_DRIVER_CTL_INIT NULL s = Some (false, s) /\
  driver_ctl RARCH_DRIVER_CTL_UNINIT NULL s = Some (false, s) /\
  (forall hz, exists s',
     driver_ctl RARCH_DRIVER_CTL_SET_REFRESH_RATE (ptr_float hz) s
     = Some (false, s') /\
     calls s' =
       calls s ++
       [call_video_monitor_set_refresh_rate hz;
        call_audio RARCH_AUDIO_CTL_MONITOR_SET_REFRESH_RATE]
       ++ adjust_rates_calls (env s)).
Proof.
  repeat split.
  intros hz.
  destruct (driver_ctl_set_refresh_rate_run hz s) as (s' & Hrun & Hcalls & _).
  exists s'. split; assumption.
Qed.

(** *** Further properties of [driver_ctl] *)

Lemma init_calls_no_category (flags : Z) (e : frontend_env) (ack : bool) :
  no_category flags ->
  init_calls flags e ack =
  call_menu RARCH_MENU_CTL_SET_OWN_DRIVER :: libretro_info_calls e.
Proof.
  intros (Ha & Hv & Hi & Hc & Hl & Hm & Hvi).
  unfold init_calls. rewrite !has_lor, Ha, Hv, Hi, Hc, Hl, Hm.
  cbn. rewrite !app_nil_r. reflexivity.
Qed.

Lemma uninit_calls_no_category (flags : Z) (own : category -> bool) :
  no_category flags -> uninit_calls flags own = [].
Proof.
  intros (Ha & Hv & Hi & Hc & Hl & Hm & Hvi).
  unfold uninit_calls. rewrite Ha, Hv, Hi, Hc, Hl, Hm, Hvi. reflexivity.
Qed.

(** X9.  With a bitmask that holds none of the seven driver bits (the
    empty bitmask among them) both commands still return success.  UNINIT
    then makes no call and writes nothing.  INIT still sets the menu's
    Ownership Flag and refreshes the cached core information, and does
    nothing else: the flags of the other categories stay as they were. *)
Theorem empty_bitmask_runs (flags : Z) (s : world)
    (Hnone : no_category flags) :
  (exists s',
     driver_ctl RARCH_DRIVER_CTL_UNINIT (ptr_int flags) s = Some (true, s') /\
     calls s' = calls s /\ unchanged s s')
  /\
  (exists s',
     driver_ctl RARCH_DRIVER_CTL_INIT (ptr_int flags) s = Some (true, s') /\
     calls s' =
       calls s ++
       call_menu RARCH_MENU_CTL_SET_OWN_DRIVER :: libretro_info_calls (env s) /\
     own_driver s' MENU = true /\
     (forall c, c <> MENU -> own_driver s' c = own_driver s c)).
Proof.
  split.
  - destruct (driver_ctl_uninit_run flags s) as (s' & Hrun & Hcalls & Hsame).
    exists s'. split; [exact Hrun|]. split; [|exact Hsame].
    rewrite Hcalls, (uninit_calls_no_category _ _ Hnone). apply app_nil_r.
  - destruct (driver_ctl_init_run flags s)
      as (s' & Hrun & Hcalls & He & Ho & _ & Hv).
    exists s'. split; [exact Hrun|].
    split; [rewrite Hcalls, (init_calls_no_category _ _ _ Hnone); reflexivity|].
    split; [rewrite Ho; reflexivity|].
    intros c Hc. rewrite Ho, init_own_all.
    destruct Hnone as (Ha & Hvd & Hi & Hcam & Hl & Hm & Hvi).
    destruct c; cbn; rewrite ?Ha, ?Hvd, ?Hi, ?Hcam, ?Hl; try reflexivity.
    elim Hc. reflexivity.
Qed.

Lemma subseq_nil (m : list call) : subseq [] m.
Proof. destruct m; cbn; auto. Qed.

Lemma subseq_skip (l m : list call) (y : call) :
  subseq l m -> subseq l (y :: m).
Proof. intros H. destruct l; cbn; auto. Qed.

Lemma subseq_when (b : bool) (x : call) (r m : list call) :
  subseq r m -> subseq (when_calls b [x] ++ r) (x :: m).
Proof.
  intros H. destruct b; cbn.
  - left. split; [reflexivity | exact H].
  - apply subseq_skip. exact H.
Qed.

Lemma uninit_calls_in_order (flags : Z) (own : category -> bool) :
  subseq (uninit_calls flags own) uninit_order.
Proof.
  unfold uninit_calls, uninit_order.
  assert (Hrest :
    subseq
      (when_calls (has flags DRIVER_LOCATION && negb (own LOCATION))
         [call_location RARCH_LOCATION_CTL_DEINIT]
       ++ when_calls (has flags DRIVER_CAMERA && negb (own CAMERA))
            [call_camera RARCH_CAMERA_CTL_DEINIT]
       ++ when_calls (has flags DRIVER_AUDIO)
            [call_audio RARCH_AUDIO_CTL_DEINIT]
       ++ when_calls (has flags DRIVERS_VIDEO_INPUT)
            [call_video RARCH_DISPLAY_CTL_DEINIT None]
       ++ when_calls (has flags DRIVER_VIDEO && negb (own VIDEO))
            [call_video RARCH_DISPLAY_CTL_DESTROY_DATA None]
       ++ when_calls (has flags DRIVER_INPUT && negb (own INPUT))
            [call_input RARCH_INPUT_CTL_DESTROY_DATA]
       ++ when_calls (has flags DRIVER_AUDIO && negb (own AUDIO))
            [call_audio RARCH_AUDIO_CTL_DESTROY_DATA])
      [call_location RARCH_LOCATION_CTL_DEINIT;
       call_camera RARCH_CAMERA_CTL_DEINIT;
       call_audio RARCH_AUDIO_CTL_DEINIT;
       call_video RARCH_DISPLAY_CTL_DEINIT None;
       call_video RARCH_DISPLAY_CTL_DESTROY_DATA None;
       call_input RARCH_INPUT_CTL_DESTROY_DATA;
       call_audio RARCH_AUDIO_CTL_DESTROY_DATA]).
  { repeat apply subseq_when.
    rewrite <- (app_nil_r (when_calls _ _)).
    apply subseq_when. apply subseq_nil. }
  destruct (has flags DRIVER_MENU); cbn [when_calls app].
  - left. split; [reflexivity|].
    destruct (own MENU); cbn [negb when_calls app].
    + apply subseq_skip. exact Hrest.
    + left. split; [reflexivity | exact Hrest].
  - apply subseq_skip, subseq_skip. exact Hrest.
Qed.

(** X10.  UNINIT tears down in one fixed order: its calls are the nine
    calls of [uninit_order] (menu context destroy, menu deinit, location,
    camera, audio deinit, joint video/input deinit, video data, input
    data, audio data) with some left out, so each is made at most once
    and never out of that order. *)
Theorem uninit_keeps_teardown_order (flags : Z) (s : world) :
  exists s' new,
    driver_ctl RARCH_DRIVER_CTL_UNINIT (ptr_int flags) s = Some (true, s') /\
    calls s' = calls s ++ new /\
    subseq new uninit_order.
Proof.
  destruct (driver_ctl_uninit_run flags s) as (s' & Hrun & Hcalls & _).
  exists s', (uninit_calls flags (own_driver s)).
  split; [exact Hrun|]. split; [exact Hcalls|].
  apply uninit_calls_in_order.
Qed.

(** X11.  INIT followed by UNINIT with the same bitmask: because INIT
    clears the Ownership Flag of every non-menu category of the bitmask,
    UNINIT makes the release call of each of them; because INIT sets the
    menu's flag, UNINIT never makes the menu's DEINIT, and with the menu
    in the bitmask it only destroys the menu context. *)
Theorem init_then_uninit_releases (flags : Z) (s : world) :
  exists s1 s2 new,
    driver_ctl RARCH_DRIVER_CTL_INIT (ptr_int flags) s = Some (true, s1) /\
    driver_ctl RARCH_DRIVER_CTL_UNINIT (ptr_int flags) s1 = Some (true, s2) /\
    calls s2 = calls s1 ++ new /\
    (forall c, c <> MENU -> has flags (flag_of c) = true ->
       In (release_call c) new) /\
    ~ In (call_menu RARCH_MENU_CTL_DEINIT) new /\
    (has flags DRIVER_MENU = true ->
     In (call_menu RARCH_MENU_CTL_CONTEXT_DESTROY) new).
Proof.
  destruct (driver_ctl_init_run flags s) as (s1 & Hrun1 & _ & _ & Ho & _).
  destruct (driver_ctl_uninit_run flags s1) as (s2 & Hrun2 & Hcalls & _).
  exists s1, s2, (uninit_calls flags (own_driver s1)).
  split; [exact Hrun1|]. split; [exact Hrun2|]. split; [exact Hcalls|].
  split; [|split].
  - intros c Hc Hin.
    assert (Hclear : own_driver s1 c = false).
    { rewrite Ho, init_own_all. destruct c; cbn in *; rewrite ?Hin;
        try reflexivity. elim Hc. reflexivity. }
    unfold uninit_calls, when_calls.
    destruct c; cbn in Hin |- *; rewrite ?Hin, ?Hclear; cbn;
      repeat (progress (rewrite ?in_app_iff; cbn [In app])); tauto.
  - intros Hin.
    destruct (uninit_calls_releases flags _ MENU _ Hin eq_refl) as [_ Hclear].
    rewrite Ho in Hclear. discriminate Hclear.
  - intros Hmenu. unfold uninit_calls, when_calls. rewrite Hmenu.
    rewrite !in_app_iff. cbn. tauto.
Qed.

(** X12.  Given a payload that is null or of the type the command reads,
    [driver_ctl] faults on exactly two inputs: SET_REFRESH_RATE with a
    null payload, and UPDATE_SYSTEM_AV_INFO with a non-null payload that
    holds a null info pointer (only the outer pointer is tested before
    the copy). *)
Theorem driver_ctl_faults_only (state : driver_ctl_state) (data : data_ptr)
    (s : world) (Hfits : payload_fits state data = true) :
  driver_ctl state data s = None <->
  (state = RARCH_DRIVER_CTL_SET_REFRESH_RATE /\ data = NULL) \/
  (state = RARCH_DRIVER_CTL_UPDATE_SYSTEM_AV_INFO /\ data = ptr_av_info None).
Proof.
  split.
  - intros Hnone.
    destruct state.
    + discriminate Hnone.
    + destruct (driver_ctl_deinit_run data s) as (s' & Hrun & _). congruence.
    + destruct data; try discriminate Hfits; try discriminate Hnone.
      destruct (driver_ctl_uninit_run flags s) as (s' & Hrun & _). congruence.
    + destruct data; try discriminate Hfits; try discriminate Hnone.
      destruct (driver_ctl_init_run flags s) as (s' & Hrun & _). congruence.
    + destruct (driver_ctl_init_pre_run data s) as (s' & Hrun & _). congruence.
    + destruct data; try discriminate Hfits.
      * left. split; reflexivity.
      * destruct (driver_ctl_set_refresh_rate_run hz s) as (s' & Hrun & _).
        congruence.
    + destruct (driver_ctl_set_nonblock_state_run data s) as (s' & Hrun & _).
      congruence.
    + destruct data as [| | |[info|]]; try discriminate Hfits;
        try discriminate Hnone.
      * destruct (driver_ctl_update_run info s) as (s' & Hrun & _). congruence.
      * right. split; reflexivity.
  - intros [[-> ->] | [-> ->]]; reflexivity.
Qed.

Lemma filter_when_calls (f : call -> bool) (b : bool) (l : list call) :
  filter f (when_calls b l) = when_calls b (filter f l).
Proof. destruct b; reflexivity. Qed.

Lemma when_calls_nil (b : bool) : when_calls b [] = [].
Proof. destruct b; reflexivity. Qed.

Lemma nonblock_calls_no_init (e : frontend_env) :
  filter is_init_call (nonblock_calls e) = [].
Proof.
  unfold nonblock_calls. rewrite filter_app, filter_when_calls. cbn.
  rewrite when_calls_nil. reflexivity.
Qed.

Lemma adjust_rates_calls_no_init (e : frontend_env) :
  filter is_init_call (adjust_rates_calls e) = [].
Proof.
  unfold adjust_rates_calls. rewrite filter_app, filter_when_calls.
  destruct (system_force_nonblock e);
    [|rewrite nonblock_calls_no_init]; cbn; apply when_calls_nil.
Qed.

Lemma libretro_info_calls_no_init (e : frontend_env) :
  filter is_init_call (libretro_info_calls e) = [].
Proof.
  unfold libretro_info_calls.
  rewrite filter_when_calls, filter_app, filter_when_calls. cbn.
  rewrite !when_calls_nil. reflexivity.
Qed.

(** X13.  INIT brings the backends up in one fixed order and only these:
    video when VIDEO is in the bitmask, then audio when AUDIO is, then
    the camera when CAMERA is in the bitmask and the camera is flagged
    active, then location likewise, then the menu when MENU is. *)
Theorem init_brings_up_in_order (flags : Z) (s : world) :
  exists s' new,
    driver_ctl RARCH_DRIVER_CTL_INIT (ptr_int flags) s = Some (true, s') /\
    calls s' = calls s ++ new /\
    filter is_init_call new =
      when_calls (has flags DRIVER_VIDEO)
        [call_video RARCH_DISPLAY_CTL_INIT None]
      ++ when_calls (has flags DRIVER_AUDIO)
           [call_audio RARCH_AUDIO_CTL_INIT]
      ++ when_calls (has flags DRIVER_CAMERA && camera_is_active (env s))
           [call_init_camera]
      ++ when_calls (has flags DRIVER_LOCATION && location_is_active (env s))
           [call_init_location]
      ++ when_calls (has flags DRIVER_MENU) [call_init_menu].
Proof.
  destruct (driver_ctl_init_run flags s) as (s' & Hrun & Hcalls & _).
  exists s', (init_calls flags (env s) (video_cache_context_ack s)).
  split; [exact Hrun|]. split; [exact Hcalls|].
  unfold init_calls.
  rewrite !filter_app, !filter_when_calls, !filter_app, !filter_when_calls.
  rewrite adjust_rates_calls_no_init, libretro_info_calls_no_init,
    nonblock_calls_no_init.
  cbn [filter is_init_call].
  rewrite !when_calls_nil. cbn [app]. rewrite !app_nil_r. reflexivity.
Qed.

(** A statement of [init_drivers] that leaves the acknowledgement
    alone. *)
Ltac ack_leaf :=
  let s := fresh "s" in
  intros s (?He & ?Ha);
  unfold_m; split_conds; try discriminate;
  (split; [calls_eq | split; cbn; assumption]).

Lemma ack_state_unchanged (a : bool) (s0 s s' : world) :
  ack_state a s0 s -> unchanged s s' -> ack_state a s0 s'.
Proof.
  intros (He & Ha) (He' & _ & Ha' & _). split; congruence.
Qed.

Lemma init_drivers_ack (flags : Z) (s0 : world) :
  runs (ack_state (video_cache_context_ack s0) s0) (init_drivers flags)
    (init_calls flags (env s0) (video_cache_context_ack s0))
    (fun _ =>
       ack_state (if has flags DRIVER_VIDEO then false
                  else video_cache_context_ack s0) s0).
Proof.
  unfold init_drivers, init_calls.
  set (a0 := video_cache_context_ack s0).
  set (P := ack_state a0 s0).
  set (P' := ack_state (if has flags DRIVER_VIDEO then false else a0) s0).
  do 6 (apply runs_bind with (R := fun _ => P);
        [unfold P; ack_leaf | intros _]).
  apply runs_bind with (R := fun _ => P).
  { apply runs_when; [intros _ | auto].
    apply (runs_lift P _ adjust_rates_calls).
    - apply driver_adjust_system_rates_runs.
    - apply ack_state_unchanged.
    - intros s Hs. apply Hs. }
  intros _.
  apply runs_bind with (R := fun _ => P').
  { unfold P, P'. intros s (He & Ha).
    unfold_m. split_conds; try discriminate;
      (split; [calls_eq | split; cbn; congruence]). }
  intros _.
  apply runs_bind with (R := fun _ => P'); [unfold P'; ack_leaf | intros _].
  apply runs_query
    with (v := has flags DRIVER_CAMERA && camera_is_active (env s0)).
  { unfold P'. intros s (He & Ha). unfold_m. split_conds; reflexivity. }
  apply runs_bind with (R := fun _ => P'); [unfold P'; ack_leaf | intros _].
  apply runs_query
    with (v := has flags DRIVER_LOCATION && location_is_active (env s0)).
  { unfold P'. intros s (He & Ha). unfold_m. split_conds; reflexivity. }
  apply runs_bind with (R := fun _ => P'); [unfold P'; ack_leaf | intros _].
  apply runs_bind with (R := fun _ => P').
  { apply (runs_lift P' _ libretro_info_calls).
    - apply menu_update_libretro_info_runs.
    - apply ack_state_unchanged.
    - intros s Hs. apply Hs. }
  intros _.
  apply runs_bind with (R := fun _ => P'); [unfold P'; ack_leaf | intros _].
  apply runs_when; [intros _ | auto].
  apply runs_query with (v := input_nonblock_state (env s0)).
  { unfold P'. intros s (He & Ha). unfold_m. rewrite He. reflexivity. }
  apply runs_when; [intros _ | auto].
  unfold driver_ctl_SET_NONBLOCK_STATE.
  rewrite <- (app_nil_r (nonblock_calls (env s0))).
  apply runs_bind with (R := fun _ => P').
  - apply (runs_lift P' _ nonblock_calls).
    + apply driver_set_nonblock_state_runs.
    + apply ack_state_unchanged.
    + intros s Hs. apply Hs.
  - intros _. apply runs_ret. auto.
Qed.

Lemma init_calls_context_reset (flags : Z) (e : frontend_env) (ack : bool) :
  In call_hw_render_context_reset (init_calls flags e ack) <->
  has flags DRIVER_VIDEO = true /\ ack = false /\
  hw_render_has_context_reset e = true.
Proof.
  split.
  - unfold init_calls, adjust_rates_calls, libretro_info_calls, nonblock_calls.
    intros H. in_split; try discriminate.
    repeat split; assumption.
  - intros (Hv & -> & Hhw). unfold init_calls, when_calls.
    rewrite Hv, Hhw. cbn [negb andb].
    repeat (progress (rewrite ?in_app_iff; cbn [In app])). tauto.
Qed.

(** X14.  INIT with VIDEO in the bitmask uses the cache-context
    acknowledgement up: the hardware renderer's context-reset callback is
    invoked exactly when VIDEO is in the bitmask, no acknowledgement is
    pending and the callback is set, and the acknowledgement is clear
    afterwards; without VIDEO in the bitmask it is left as it was. *)
Theorem init_uses_up_context_ack (flags : Z) (s : world) :
  exists s' new,
    driver_ctl RARCH_DRIVER_CTL_INIT (ptr_int flags) s = Some (true, s') /\
    calls s' = calls s ++ new /\
    (In call_hw_render_context_reset new <->
     has flags DRIVER_VIDEO = true /\ video_cache_context_ack s = false /\
     hw_render_has_context_reset (env s) = true) /\
    video_cache_context_ack s' =
      (if has flags DRIVER_VIDEO then false else video_cache_context_ack s).
Proof.
  assert (Hstart : ack_state (video_cache_context_ack s) s s)
    by (split; reflexivity).
  destruct (runs_result _ _ _ _ s (init_drivers_ack flags s) Hstart)
    as ([] & s' & Hrun & Hcalls & _ & Hack).
  exists s', (init_calls flags (env s) (video_cache_context_ack s)).
  split; [cbn; unfold bind; rewrite Hrun; reflexivity|].
  split; [exact Hcalls|].
  split; [apply init_calls_context_reset | exact Hack].
Qed.

Lemma ends_app (x : call) (l1 l2 : list call) :
  (exists l, l2 = l ++ [x]) -> exists l, l1 ++ l2 = l ++ [x].
Proof.
  intros (l & ->). exists (l1 ++ l). apply app_assoc.
Qed.

(** X15.  INIT with VIDEO or AUDIO in the bitmask, while the input
    driver is in nonblocking state, re-applies the nonblocking state as
    its last step: the last call of the run sets the audio backend to
    nonblocking. *)
Theorem init_reapplies_nonblock_last (flags : Z) (s : world)
    (Hsel : has flags DRIVER_VIDEO || has flags DRIVER_AUDIO = true)
    (Hnonblock : input_nonblock_state (env s) = true) :
  exists s' before,
    driver_ctl RARCH_DRIVER_CTL_INIT (ptr_int flags) s = Some (true, s') /\
    calls s' =
      calls s ++ before ++ [call_audio_driver_set_nonblocking_state true].
Proof.
  destruct (driver_ctl_init_run flags s) as (s' & Hrun & Hcalls & _).
  assert (Hend : exists l,
            init_calls flags (env s) (video_cache_context_ack s)
            = l ++ [call_audio_driver_set_nonblocking_state true]).
  { unfold init_calls. repeat apply ends_app.
    rewrite has_lor, Hsel, Hnonblock. cbn [when_calls].
    unfold nonblock_calls. rewrite Hnonblock. eexists. reflexivity. }
  destruct Hend as (l & Hl).
  exists s', l. split; [exact Hrun|]. rewrite Hcalls, Hl. reflexivity.
Qed.

Lemma init_own_twice (flags : Z) (own0 : category -> bool) (c : category) :
  init_own flags all_categories (init_own flags all_categories own0) c
  = init_own flags all_categories own0 c.
Proof.
  unfold init_own.
  destruct (existsb (category_eqb c) all_categories && own_written flags c);
    reflexivity.
Qed.

Lemma init_run_flags_ack (flags : Z) (s : world) :
  exists s',
    driver_ctl RARCH_DRIVER_CTL_INIT (ptr_int flags) s = Some (true, s') /\
    (forall c,
       own_driver s' c = init_own flags all_categories (own_driver s) c) /\
    video_cache_context_ack s' =
      (if has flags DRIVER_VIDEO then false else video_cache_context_ack s).
Proof.
  destruct (driver_ctl_init_run flags s) as (s' & Hrun & _ & _ & Hown & _).
  assert (Hstart : ack_state (video_cache_context_ack s) s s)
    by (split; reflexivity).
  destruct (runs_result _ _ _ _ s (init_drivers_ack flags s) Hstart)
    as ([] & s'' & Hrun' & _ & _ & Hack).
  assert (Hsame : s'' = s').
  { cbn in Hrun. unfold bind in Hrun. rewrite Hrun' in Hrun.
    unfold ret in Hrun. congruence. }
  subst s''. exists s'. split; [exact Hrun|]. split; [exact Hown | exact Hack].
Qed.

Ltac frame_done :=
  split; [intros _ _; split; assumption | intros _; assumption].

(** X16.  What the commands write of the coordinator's own state.  A
    command other than INIT and UPDATE_SYSTEM_AV_INFO (whose reinit goes
    back through the coordinator) writes no Ownership Flag and leaves
    the cache-context acknowledgement alone; a command other than
    UPDATE_SYSTEM_AV_INFO, INIT included, leaves the system A/V info
    alone. *)
Theorem driver_ctl_writes (state : driver_ctl_state) (data : data_ptr)
    (s s' : world) (b : bool)
    (Hrun : driver_ctl state data s = Some (b, s')) :
  (state <> RARCH_DRIVER_CTL_INIT ->
   state <> RARCH_DRIVER_CTL_UPDATE_SYSTEM_AV_INFO ->
   (forall c, own_driver s' c = own_driver s c) /\
   video_cache_context_ack s' = video_cache_context_ack s) /\
  (state <> RARCH_DRIVER_CTL_UPDATE_SYSTEM_AV_INFO ->
   system_av_info s' = system_av_info s).
Proof.
  assert (Hsame : forall s1 : world,
            s1 = s' ->
            (forall c, own_driver s' c = own_driver s1 c) /\
            video_cache_context_ack s' = video_cache_context_ack s1 /\
            system_av_info s' = system_av_info s1).
  { intros s1 ->. repeat split. }
  assert (Hkeep : forall (b0 : bool) (s1 : world),
            driver_ctl state data s = Some (b0, s1) ->
            unchanged s s1 ->
            (forall c, own_driver s' c = own_driver s c) /\
            video_cache_context_ack s' = video_cache_context_ack s /\
            system_av_info s' = system_av_info s).
  { intros b0 s1 Hrun1 (_ & Hown & Hack & Hav).
    rewrite Hrun1 in Hrun. injection Hrun as _ <-.
    repeat split; assumption. }
  destruct state.
  - injection Hrun as _ Hs. destruct (Hsame s Hs) as (? & ? & ?).
    frame_done.
  - destruct (driver_ctl_deinit_run data s) as (s1 & Hrun1 & _ & Hun).
    destruct (Hkeep _ _ Hrun1 Hun) as (? & ? & ?).
    frame_done.
  - destruct data; try discriminate Hrun.
    + injection Hrun as _ Hs. destruct (Hsame s Hs) as (? & ? & ?).
      frame_done.
    + destruct (driver_ctl_uninit_run flags s) as (s1 & Hrun1 & _ & Hun).
      destruct (Hkeep _ _ Hrun1 Hun) as (? & ? & ?).
      frame_done.
  - destruct data; try discriminate Hrun.
    + injection Hrun as _ Hs. destruct (Hsame s Hs) as (? & ? & ?).
      frame_done.
    + destruct (driver_ctl_init_run flags s)
        as (s1 & Hrun1 & _ & _ & _ & _ & Hav).
      rewrite Hrun1 in Hrun. injection Hrun as _ <-.
      split; [intros Hne; elim Hne; reflexivity | intros _; exact Hav].
  - destruct (driver_ctl_init_pre_run data s) as (s1 & Hrun1 & _ & Hun).
    destruct (Hkeep _ _ Hrun1 Hun) as (? & ? & ?).
    frame_done.
  - destruct data; try discriminate Hrun.
    destruct (driver_ctl_set_refresh_rate_run hz s)
      as (s1 & Hrun1 & _ & Hun).
    destruct (Hkeep _ _ Hrun1 Hun) as (? & ? & ?).
    frame_done.
  - destruct (driver_ctl_set_nonblock_state_run data s)
      as (s1 & Hrun1 & _ & Hun).
    destruct (Hkeep _ _ Hrun1 Hun) as (? & ? & ?).
    frame_done.
  - split; [intros _ Hne | intros Hne]; elim Hne; reflexivity.
Qed.

(** X17.  INIT with the same bitmask a second time leaves every
    Ownership Flag and the cache-context acknowledgement as the first run
    left them. *)
Theorem init_twice_same_flags (flags : Z) (s : world) :
  exists s1 s2,
    driver_ctl RARCH_DRIVER_CTL_INIT (ptr_int flags) s = Some (true, s1) /\
    driver_ctl RARCH_DRIVER_CTL_INIT (ptr_int flags) s1 = Some (true, s2) /\
    (forall c, own_driver s2 c = own_driver s1 c) /\
    video_cache_context_ack s2 = video_cache_context_ack s1.
Proof.
  destruct (init_run_flags_ack flags s) as (s1 & Hrun1 & Hown1 & Hack1).
  destruct (init_run_flags_ack flags s1) as (s2 & Hrun2 & Hown2 & Hack2).
  exists s1, s2. split; [exact Hrun1|]. split; [exact Hrun2|]. split.
  - intros c. rewrite Hown2.
    unfold init_own at 1. rewrite Hown1.
    fold (init_own flags all_categories
            (init_own flags all_categories (own_driver s)) c).
    apply init_own_twice.
  - rewrite Hack2, Hack1. destruct (has flags DRIVER_VIDEO); reflexivity.
Qed.

End LifecycleFacts.

(* ================================================================= *)
(** * Concrete runs *)

Example djb2_labels :
  djb2 "location_driver" = HASH_LOCATION_DRIVER /\
  djb2 "camera_driver" = HASH_CAMERA_DRIVER /\
  djb2 "menu_driver" = HASH_MENU_DRIVER /\
  djb2 "input_driver" = HASH_INPUT_DRIVER /\
  djb2 "input_joypad_driver" = HASH_INPUT_JOYPAD_DRIVER /\
  djb2 "video_driver" = HASH_VIDEO_DRIVER /\
  djb2 "audio_driver" = HASH_AUDIO_DRIVER /\
  djb2 "audio_resampler_driver" = HASH_AUDIO_RESAMPLER_DRIVER /\
  djb2 "record_driver" = HASH_RECORD_DRIVER.
Proof. vm_compute. repeat split; reflexivity. Qed.

Example find_driver_index_gl :
  find_driver_index djb2 sample_registries "video_driver" "GL" = 1.
Proof. vm_compute. reflexivity. Qed.

Example find_driver_index_missing :
  find_driver_index djb2 sample_registries "video_driver" "vulkan" = -1.
Proof. vm_compute. reflexivity. Qed.

Example find_prev_driver_gl :
  find_prev_driver djb2 sample_registries "video_driver" "gl" 32
  = (true, "ctr"%string).
Proof. vm_compute. reflexivity. Qed.

Example find_prev_driver_first :
  find_prev_driver djb2 sample_registries "video_driver" "ctr" 32
  = (false, "ctr"%string).
Proof. vm_compute. reflexivity. Qed.

Example find_next_driver_gl :
  find_next_driver djb2 sample_registries "video_driver" "gl" 32
  = (true, "null"%string).
Proof. vm_compute. reflexivity. Qed.

(** At the last entry of a table without a ["null"] backend the call
    succeeds and writes nothing. *)
Example find_next_driver_last :
  find_next_driver djb2 sample_registries "audio_resampler_driver" "nearest" 32
  = (true, "nearest"%string).
Proof. vm_compute. reflexivity. Qed.

(** The comparison with the sentinel is exact, the lookup ignores case. *)
Example find_next_driver_upper_null :
  find_next_driver djb2 sample_registries "video_driver" "NULL" 32
  = (true, "NULL"%string).
Proof. vm_compute. reflexivity. Qed.

Example is_index_of_gl :
  is_index_of (drivers_of djb2 sample_registries "video_driver") "gl" 1.
Proof.
  split; [lia|]. exists (mk "gl").
  split; [reflexivity|].
  split; [vm_compute; discriminate|].
  split; [vm_compute; reflexivity|].
  intros j d' Hj Hd'.
  assert (j = 0)%nat by (cbn in Hj; lia). subst j.
  vm_compute in Hd'. injection Hd' as <-.
  split; vm_compute; discriminate.
Qed.

(** C1, counterexample: with a null payload pointer the command returns
    failure. *)
Lemma update_system_av_info_null_payload_fails :
  driver_ctl (cfg := sample_config)
    RARCH_DRIVER_CTL_UPDATE_SYSTEM_AV_INFO NULL sample_world
  = Some (false, sample_world).
Proof. reflexivity. Qed.


(** C3, counterexample: with every Ownership Flag true, DEINIT still makes
    the video DESTROY call, and UNINIT of the audio category still makes
    the audio DEINIT call. *)
Lemma deinit_ignores_ownership :
  own_driver owned_world VIDEO = true /\
  own_driver owned_world AUDIO = true /\
  (exists s',
     driver_ctl (cfg := sample_config) RARCH_DRIVER_CTL_DEINIT NULL owned_world
     = Some (false, s') /\
     In (call_video RARCH_DISPLAY_CTL_DESTROY None) (calls s')) /\
  has 1 (DRIVER_AUDIO (build_config := sample_config)) = true /\
  (exists s',
     driver_ctl (cfg := sample_config) RARCH_DRIVER_CTL_UNINIT (ptr_int 1)
       owned_world = Some (true, s') /\
     calls s' = [call_audio RARCH_AUDIO_CTL_DEINIT]).
Proof.
  split; [reflexivity|]. split; [reflexivity|].
  split; [eexists; split; [vm_compute; reflexivity | cbn; auto]|].
  split; [reflexivity|].
  eexists. split; [vm_compute; reflexivity | reflexivity].
Qed.

Example init_video_audio_run :
  exists s',
    driver_ctl (cfg := sample_config) RARCH_DRIVER_CTL_INIT (ptr_int 3)
      sample_world = Some (true, s') /\
    calls s' =
      [call_video RARCH_DISPLAY_CTL_UNSET_OWN_DRIVER None;
       call_audio RARCH_AUDIO_CTL_UNSET_OWN_DRIVER;
       call_menu RARCH_MENU_CTL_SET_OWN_DRIVER;
       call_audio RARCH_AUDIO_CTL_MONITOR_ADJUST_SYSTEM_RATES;
       call_video RARCH_DISPLAY_CTL_MONITOR_ADJUST_SYSTEM_RATES None;
       call_video RARCH_DISPLAY_CTL_SET_NONBLOCK_STATE (Some false);
       call_audio_driver_set_nonblocking_state false;
       call_video RARCH_DISPLAY_CTL_MONITOR_RESET None;
       call_video RARCH_DISPLAY_CTL_INIT None;
       call_video RARCH_DISPLAY_CTL_UNSET_VIDEO_CACHE_CONTEXT_ACK None;
       call_runloop_set_frame_time_last;
       call_audio RARCH_AUDIO_CTL_INIT;
       call_retro_get_system_info;
       call_event_command EVENT_CMD_CORE_INFO_INIT;
       call_event_command EVENT_CMD_LOAD_CORE_PERSIST].
Proof. eexists. split; [vm_compute; reflexivity | reflexivity]. Qed.

(** With the sample reinit cycle, which brings the video driver up again
    and clears its Ownership Flag. *)
Example update_system_av_info_run :
  exists s',
    driver_ctl (cfg := sample_config) RARCH_DRIVER_CTL_UPDATE_SYSTEM_AV_INFO
      (ptr_av_info (Some sample_av_info)) owned_world = Some (true, s') /\
    calls s' =
      [call_event_command EVENT_CMD_REINIT;
       call_video RARCH_DISPLAY_CTL_INIT None;
       call_runloop_msg_queue_push_new
         MSG_RESTARTING_RECORDING_DUE_TO_DRIVER_REINIT 2 180 false;
       call_event_command EVENT_CMD_RECORD_DEINIT;
       call_event_command EVENT_CMD_RECORD_INIT] /\
    own_driver s' VIDEO = false /\
    own_driver s' AUDIO = true.
Proof.
  eexists. split; [vm_compute; reflexivity|]. repeat split.
Qed.

(** *** The statements at concrete inputs *)

Lemma find_prev_driver_spec_witness :
  is_index_of (drivers_of djb2 sample_registries "video_driver") "gl" 1 /\
  0 < 1 /\
  find_prev_driver djb2 sample_registries "video_driver" "gl" 32
  = (true, "ctr"%string).
Proof.
  split; [exact is_index_of_gl|]. split; [reflexivity|].
  destruct (proj1 (find_prev_driver_spec djb2 sample_registries
                     "video_driver" "gl" 32) 1 (conj is_index_of_gl eq_refl))
    as (d & Hd & Hrun & _).
  vm_compute in Hd. injection Hd as <-. exact Hrun.
Defined.

Lemma find_next_driver_spec_witness :
  is_index_of (drivers_of djb2 sample_registries "video_driver") "gl" 1 /\
  strcmp "gl" "null" <> 0 /\
  find_next_driver djb2 sample_registries "video_driver" "gl" 32
  = (true, "null"%string) /\
  find_next_driver djb2 sample_registries "video_driver" "null" 32
  = (false, "null"%string).
Proof.
  assert (Hnull : strcmp "gl" "null" <> 0) by (vm_compute; discriminate).
  pose proof (find_next_driver_spec djb2 sample_registries
                "video_driver" "gl" 32) as (_ & _ & _ & Hnext & _).
  pose proof (find_next_driver_spec djb2 sample_registries
                "video_driver" "null" 32) as (Hfail & _).
  split; [exact is_index_of_gl|]. split; [exact Hnull|]. split.
  - exact (Hnext 1 (mk "null") is_index_of_gl Hnull eq_refl eq_refl).
  - apply Hfail. right. reflexivity.
Defined.

Lemma set_nonblock_state_spec_witness :
  exists s',
    driver_ctl (cfg := sample_config) RARCH_DRIVER_CTL_SET_NONBLOCK_STATE NULL
      sample_world = Some (false, s') /\
    calls s' =
      [call_video RARCH_DISPLAY_CTL_SET_NONBLOCK_STATE (Some false);
       call_audio_driver_set_nonblocking_state false].
Proof.
  destruct (set_nonblock_state_spec (cfg := sample_config) NULL sample_world)
    as (s' & Hrun & _ & _ & Hblocking).
  exists s'. split; [exact Hrun|].
  apply Hblocking. repeat split.
Defined.

Lemma uninit_respects_ownership_witness :
  own_driver owned_world MENU = true /\
  has 63 (DRIVER_MENU (build_config := sample_config)) = true /\
  exists s' new,
    driver_ctl (cfg := sample_config) RARCH_DRIVER_CTL_UNINIT (ptr_int 63)
      owned_world = Some (true, s') /\
    calls s' = calls owned_world ++ new /\
    ~ In (call_menu RARCH_MENU_CTL_DEINIT) new.
Proof.
  split; [reflexivity|]. split; [reflexivity|].
  destruct (uninit_respects_ownership (cfg := sample_config) 63 owned_world)
    as ((s' & new & Hrun & Hcalls & Hkeep & _) & _).
  exists s', new. split; [exact Hrun|]. split; [exact Hcalls|].
  intros Hin.
  pose proof (Hkeep MENU _ eq_refl Hin) as Hrel. discriminate Hrel.
Defined.


Lemma driver_ctl_true_only_with_payload_witness :
  exists s',
    driver_ctl (cfg := sample_config) RARCH_DRIVER_CTL_INIT (ptr_int 3)
      sample_world = Some (true, s') /\
    (RARCH_DRIVER_CTL_INIT = RARCH_DRIVER_CTL_UNINIT \/
     RARCH_DRIVER_CTL_INIT = RARCH_DRIVER_CTL_INIT \/
     RARCH_DRIVER_CTL_INIT = RARCH_DRIVER_CTL_UPDATE_SYSTEM_AV_INFO) /\
    ptr_int 3 <> NULL.
Proof.
  pose proof (driver_ctl_true_only_with_payload (cfg := sample_config))
    as (Honly & _ & Hinit & _).
  destruct (Hinit 3 sample_world) as (s' & Hrun).
  exists s'. split; [exact Hrun|].
  exact (Honly _ _ _ _ Hrun).
Defined.

(** *** The further properties at concrete inputs *)

Example is_index_of_ctr :
  is_index_of (drivers_of djb2 sample_registries "video_driver") "ctr" 0.
Proof.
  split; [lia|]. exists (mk "ctr").
  split; [reflexivity|].
  split; [vm_compute; discriminate|].
  split; [vm_compute; reflexivity|].
  intros j d' Hj Hd'. cbn in Hj. lia.
Qed.

Example is_index_of_nearest :
  is_index_of (drivers_of djb2 sample_registries "audio_resampler_driver")
    "nearest" 1.
Proof.
  split; [lia|]. exists (mk "nearest").
  split; [reflexivity|].
  split; [vm_compute; discriminate|].
  split; [vm_compute; reflexivity|].
  intros j d' Hj Hd'.
  assert (j = 0)%nat by (cbn in Hj; lia). subst j.
  vm_compute in Hd'. injection Hd' as <-.
  split; vm_compute; discriminate.
Qed.

Lemma unknown_label_finds_nothing_witness :
  ~ In (djb2 "led_driver") driver_hashes /\
  find_driver_index djb2 sample_registries "led_driver" "null" = -1 /\
  find_first_driver djb2 sample_registries "led_driver" "null" 32
  = (true, "null"%string).
Proof.
  assert (Hunknown : ~ In (djb2 "led_driver") driver_hashes).
  { vm_compute. intros H.
    repeat (destruct H as [H|H]; [discriminate H|]). exact H. }
  split; [exact Hunknown|].
  destruct (unknown_label_finds_nothing djb2 sample_registries
              "led_driver" "null" 32 Hunknown)
    as (_ & Hindex & Hfirst & _).
  split; [exact Hindex | exact Hfirst].
Defined.

Lemma find_driver_index_ignores_case_witness :
  lower "Gl" = lower "gL" /\
  find_driver_index djb2 sample_registries "video_driver" "Gl"
  = find_driver_index djb2 sample_registries "video_driver" "gL".
Proof.
  assert (Hsame : lower "Gl" = lower "gL") by (vm_compute; reflexivity).
  split; [exact Hsame|].
  exact (find_driver_index_ignores_case djb2 sample_registries
           "video_driver" "Gl" "gL" Hsame).
Defined.

Lemma find_first_driver_round_trip_witness :
  find_first_driver djb2 sample_registries "audio_driver" "dsp" 32
  = (true, "csnd"%string) /\
  find_driver_index djb2 sample_registries "audio_driver" "csnd" = 0.
Proof.
  refine (find_first_driver_round_trip djb2 sample_registries
            "audio_driver" "dsp" 32 (mk "csnd") [mk "dsp"; mk "null"]
            _ _ _ _).
  - vm_compute. reflexivity.
  - cbn. discriminate.
  - vm_compute. reflexivity.
  - cbn. lia.
Defined.

Lemma find_prev_after_find_next_witness :
  find_next_driver djb2 sample_registries "video_driver" "ctr" 32
  = (true, "gl"%string) /\
  find_prev_driver djb2 sample_registries "video_driver" "gl" 32
  = (true, "ctr"%string).
Proof.
  refine (find_prev_after_find_next djb2 sample_registries
            "video_driver" "ctr" 32 0 (mk "ctr") (mk "gl")
            is_index_of_ctr _ _ _ is_index_of_gl _ _).
  - vm_compute. discriminate.
  - vm_compute. reflexivity.
  - vm_compute. reflexivity.
  - vm_compute. reflexivity.
  - vm_compute. reflexivity.
Defined.

Lemma resolver_writes_fit_witness :
  "null"%string
  = snd (find_next_driver djb2 sample_registries "video_driver" "gl" 32) /\
  ("null"%string = "gl"%string \/
   (N.of_nat (String.length "null") < 32)%N).
Proof.
  assert (Hnext : "null"%string
                  = snd (find_next_driver djb2 sample_registries
                           "video_driver" "gl" 32))
    by (vm_compute; reflexivity).
  split; [exact Hnext|].
  exact (resolver_writes_fit djb2 sample_registries "video_driver" "gl" 32
           "null" (or_intror (or_intror Hnext))).
Defined.

Lemma find_next_driver_at_end_witness :
  find_next_driver djb2 sample_registries "audio_resampler_driver"
    "nearest" 32 = (true, "nearest"%string).
Proof.
  refine (find_next_driver_at_end djb2 sample_registries
            "audio_resampler_driver" "nearest" 32 1 is_index_of_nearest _ _).
  - vm_compute. discriminate.
  - vm_compute. reflexivity.
Defined.

Lemma find_driver_index_stops_at_empty_name_witness :
  ident (mk "") = EmptyString /\
  find_driver_index djb2 gap_registries "record_driver" "null" < 1.
Proof.
  split; [reflexivity|].
  refine (find_driver_index_stops_at_empty_name djb2 gap_registries
            "record_driver" "null" 1 (mk "") _ _).
  - vm_compute. reflexivity.
  - reflexivity.
Defined.

Lemma empty_bitmask_runs_witness :
  no_category (cfg := sample_config) 192 /\
  exists s',
    driver_ctl (cfg := sample_config) RARCH_DRIVER_CTL_UNINIT (ptr_int 192)
      owned_world = Some (true, s') /\
    calls s' = calls owned_world.
Proof.
  assert (Hnone : no_category (cfg := sample_config) 192)
    by (repeat split; vm_compute; reflexivity).
  split; [exact Hnone|].
  destruct (empty_bitmask_runs (cfg := sample_config) 192 owned_world Hnone)
    as ((s' & Hrun & Hcalls & _) & _).
  exists s'. split; [exact Hrun | exact Hcalls].
Defined.

Lemma driver_ctl_faults_only_witness :
  payload_fits RARCH_DRIVER_CTL_SET_REFRESH_RATE NULL = true /\
  driver_ctl (cfg := sample_config) RARCH_DRIVER_CTL_SET_REFRESH_RATE NULL
    sample_world = None.
Proof.
  split; [reflexivity|].
  apply (driver_ctl_faults_only (cfg := sample_config)
           RARCH_DRIVER_CTL_SET_REFRESH_RATE NULL sample_world eq_refl).
  left. split; reflexivity.
Defined.

Lemma init_reapplies_nonblock_last_witness :
  has 1 (DRIVER_AUDIO (build_config := sample_config)) = true /\
  input_nonblock_state (env nonblock_world) = true /\
  exists s' before,
    driver_ctl (cfg := sample_config) RARCH_DRIVER_CTL_INIT (ptr_int 1)
      nonblock_world = Some (true, s') /\
    calls s' =
      calls nonblock_world ++ before
      ++ [call_audio_driver_set_nonblocking_state true].
Proof.
  split; [reflexivity|]. split; [reflexivity|].
  exact (init_reapplies_nonblock_last (cfg := sample_config) 1 nonblock_world
           eq_refl eq_refl).
Defined.

Lemma driver_ctl_writes_witness :
  exists s',
    driver_ctl (cfg := sample_config) RARCH_DRIVER_CTL_DEINIT NULL owned_world
    = Some (false, s') /\
    (forall c, own_driver s' c = own_driver owned_world c) /\
    system_av_info s' = system_av_info owned_world.
Proof.
  destruct (driver_ctl_deinit_run (cfg := sample_config) NULL owned_world)
    as (s' & Hrun & _).
  destruct (driver_ctl_writes (cfg := sample_config) _ _ _ _ _ Hrun)
    as (Hflags & Hav).
  exists s'. split; [exact Hrun|]. split.
  - apply Hflags; discriminate.
  - apply Hav. discriminate.
Defined.
